(** * radicalfield: the QuadraticElement2 extension type

    A shallow embedding of [radicalfield/_quadraticelement2module.c].

    The C file is written against the CPython object model: objects live
    at addresses, carry a reference count and a type pointer, and the
    interpreter reaches the functions of the file through the slot table
    of the type.  The embedding keeps that shape:

    - the heap is a finite map from addresses to objects ([gmap]);
    - [PyObject*] is [option addr], [NULL] being [None];
    - C functions that touch the heap pass it explicitly;
    - a function that returns [NULL] with an exception set returns
      [Raise e];
    - host allocations that may fail read their outcome from a schedule
      carried by the host state. *)

From Stdlib Require Import ZArith Ascii String List Bool Lia.
From stdpp Require Import gmap strings list fin_maps option.

Open Scope string_scope.
Open Scope Z_scope.

(** ** The host object model *)

Definition addr := positive.

Inductive exn := TypeError | AttributeError | MemoryError | SystemError.

Inductive result (A : Type) :=
  | Ok (x : A)
  | Raise (e : exn).
Arguments Ok {A} x.
Arguments Raise {A} e.

(** Slot identifiers of [PyType_Slot] entries (typeslots.h); the ones the
    file fills and the ones the operator dispatch reads. *)
Inductive slot_id :=
  | Py_tp_dealloc | Py_tp_traverse | Py_tp_clear | Py_tp_members | Py_tp_new
  | Py_tp_richcompare
  | Py_nb_add | Py_nb_multiply | Py_sq_concat | Py_sq_repeat.

#[global] Instance slot_id_eq_dec : EqDecision slot_id.
Proof. solve_decision. Defined.

(** Function pointers: the four functions of the file that are stored in
    slots, and the host functions behind the slots of [int] and [object]. *)
Inductive cfunc :=
  | quadraticelement2_new_fn
  | quadraticelement2_dealloc_fn
  | quadraticelement2_traverse_fn
  | quadraticelement2_clear_fn
  | long_add_fn | long_mul_fn | long_richcompare_fn
  | object_richcompare_fn.

(** [offsetof(quadraticelement2object, a)] and [offsetof(.., b)]. *)
Inductive field_offset := offsetof_a | offsetof_b.

Inductive member_type := Py_T_OBJECT_EX.

Definition Py_READONLY : Z := 1.

Record PyMemberDef := {
  name : string;
  type : member_type;
  offset : field_offset;
  flags : Z
}.

(** The [pfunc] of a slot: a function pointer or, for [Py_tp_members],
    the member table. *)
Inductive pfunc :=
  | Fn (f : cfunc)
  | Members (m : list PyMemberDef).

Definition PyType_Slot : Type := slot_id * pfunc.

Inductive tpflag :=
  | Py_TPFLAGS_DEFAULT | Py_TPFLAGS_HAVE_GC | Py_TPFLAGS_IMMUTABLETYPE
  | Py_TPFLAGS_HEAPTYPE.

Record PyType_Spec := {
  spec_name : string;
  spec_flags : list tpflag;
  spec_slots : list PyType_Slot
}.

(** [typedef struct { PyObject_HEAD PyObject* a; PyObject* b; }
    quadraticelement2object;] without the head, which is [PyObject]
    below. *)
Record quadraticelement2object := {
  qe_a : option addr;
  qe_b : option addr
}.

Record PyTypeObject := {
  tp_name : string;
  ht_name : string;
  tp_module : option string;
  tp_flags : list tpflag;
  tp_slots : list PyType_Slot;
  ht_module : option addr
}.

(** [typedef struct { PyTypeObject* QuadraticElement2_Type; } module_state;] *)
Record module_state := {
  QuadraticElement2_Type : option addr
}.

Record PyModuleObject := {
  md_dict : gmap string addr;
  md_state : module_state
}.

(** What an object holds after its head.  [NoneObj] is [None] and
    [PlainObject] an instance of [object]: neither has number or
    sequence slots nor an integer conversion. *)
Inductive body :=
  | Long (z : Z)
  | NoneObj
  | PlainObject
  | TypeObj (t : PyTypeObject)
  | ModuleObj (m : PyModuleObject)
  | QE2 (qe : quadraticelement2object).

(** [ob_type]: a static type of the host or a heap type at an address. *)
Inductive typeref :=
  | PyLong_Type | PyNone_Type | PyBaseObject_Type | PyType_Type | PyModule_Type
  | HeapType (tp : addr).

#[global] Instance typeref_eq_dec : EqDecision typeref.
Proof. solve_decision. Defined.

(** [PyObject_HEAD] and the body.  [ob_refcnt] is a [Py_ssize_t]; its
    range is not modelled. *)
Record PyObject := {
  ob_refcnt : Z;
  ob_type : typeref;
  ob_body : body
}.

Abbreviation heapT := (gmap addr PyObject).

(** The host: the heap and the outcomes of the coming fallible host
    allocations, in call order ([true]: the allocation succeeds; an
    exhausted schedule means no further failure). *)
Record host := {
  heap : heapT;
  allocs : list bool
}.

Definition with_heap (hp : heapT) (h : host) : host :=
  {| heap := hp; allocs := allocs h |}.

Definition take_alloc (h : host) : bool * host :=
  match allocs h with
  | [] => (true, h)
  | ok :: rest => (ok, {| heap := heap h; allocs := rest |})
  end.

(** *** Reference counting *)

Definition set_refcnt (n : Z) (o : PyObject) : PyObject :=
  {| ob_refcnt := n; ob_type := ob_type o; ob_body := ob_body o |}.

Definition set_body (b : body) (o : PyObject) : PyObject :=
  {| ob_refcnt := ob_refcnt o; ob_type := ob_type o; ob_body := b |}.

Definition Py_INCREF (op : addr) (hp : heapT) : heapT :=
  alter (fun o => set_refcnt (ob_refcnt o + 1) o) op hp.

Definition Py_XINCREF (op : option addr) (hp : heapT) : heapT :=
  match op with
  | Some p => Py_INCREF p hp
  | None => hp
  end.

(** *** Slot tables and their lookup *)

Definition slot_lookup (id : slot_id) (tbl : list PyType_Slot) : option pfunc :=
  snd <$> List.find (fun s => bool_decide (fst s = id)) tbl.

(** The slots of the static types that the model reads: [int] adds,
    multiplies and compares; [object] compares. *)
Definition PyLong_slots : list PyType_Slot :=
  [ (Py_nb_add, Fn long_add_fn);
    (Py_nb_multiply, Fn long_mul_fn);
    (Py_tp_richcompare, Fn long_richcompare_fn) ].

Definition PyBaseObject_slots : list PyType_Slot :=
  [ (Py_tp_richcompare, Fn object_richcompare_fn) ].

Definition type_slots (hp : heapT) (t : typeref) : list PyType_Slot :=
  match t with
  | PyLong_Type => PyLong_slots
  | HeapType tp =>
      match ob_body <$> hp !! tp with
      | Some (TypeObj ty) => tp_slots ty
      | _ => []
      end
  | _ => []
  end.

(** A type that leaves a slot empty inherits it from its base, which is
    [object] for every type of the model. *)
Definition type_slot (hp : heapT) (t : typeref) (id : slot_id) : option pfunc :=
  match slot_lookup id (type_slots hp t) with
  | Some f => Some f
  | None => slot_lookup id PyBaseObject_slots
  end.

Definition Py_TYPE (hp : heapT) (op : addr) : option typeref :=
  ob_type <$> hp !! op.

(** The address of a type object, for the type pointers that are
    themselves counted references (heap types). *)
Definition type_ptr (t : typeref) : option addr :=
  match t with
  | HeapType tp => Some tp
  | _ => None
  end.

(** ** The functions of the file: teardown *)

Definition Py_XDECREF_with (decref : addr -> heapT -> heapT)
    (op : option addr) (hp : heapT) : heapT :=
  match op with
  | Some p => decref p hp
  | None => hp
  end.

(** [quadraticelement2_dealloc], over the [Py_DECREF] it calls.
<<
    quadraticelement2object* qe = quadraticelement2object_CAST(op);
    PyTypeObject* tp = Py_TYPE(qe);
    PyObject_GC_UnTrack(qe);
    Py_XDECREF(qe->a);
    Py_XDECREF(qe->b);
    tp->tp_free(qe);
    Py_DECREF(tp);
>>
    The collector's list of tracked objects is not part of the model, so
    [PyObject_GC_UnTrack] has no counterpart; [tp_free] removes the object
    from the heap. *)
Definition quadraticelement2_dealloc_with (decref : addr -> heapT -> heapT)
    (op : addr) (hp : heapT) : heapT :=
  match hp !! op with
  | Some o =>
      match ob_body o with
      | QE2 qe =>
          let tp := type_ptr (ob_type o) in
          let hp := Py_XDECREF_with decref (qe_a qe) hp in
          let hp := Py_XDECREF_with decref (qe_b qe) hp in
          let hp := delete op hp in
          Py_XDECREF_with decref tp hp
      | _ => hp
      end
  | None => hp
  end.

(** [Py_DECREF]: [if (--op->ob_refcnt == 0) _Py_Dealloc(op);] where
    [_Py_Dealloc] calls the [tp_dealloc] of the object's type.  An element
    is torn down by [quadraticelement2_dealloc]; the other objects of the
    model own no counted reference that the model tracks and are freed.
    [fuel] bounds the nesting of deallocations. *)
Fixpoint Py_DECREF_fuel (fuel : nat) (op : addr) (hp : heapT) : heapT :=
  match hp !! op with
  | None => hp
  | Some o =>
      let n := ob_refcnt o - 1 in
      let hp := <[op := set_refcnt n o]> hp in
      if n =? 0 then
        match fuel with
        | O => hp
        | S fuel' =>
            match type_slot hp (ob_type o) Py_tp_dealloc with
            | Some (Fn quadraticelement2_dealloc_fn) =>
                quadraticelement2_dealloc_with (Py_DECREF_fuel fuel') op hp
            | _ => delete op hp
            end
        end
      else hp
  end.

(** Every nested deallocation is that of another object whose count has
    just reached zero, so the number of objects bounds the nesting
    ([Py_DECREF_fuel_enough] below: more fuel gives the same heap). *)
Definition Py_DECREF (op : addr) (hp : heapT) : heapT :=
  Py_DECREF_fuel (S (size hp)) op hp.

Definition Py_XDECREF (op : option addr) (hp : heapT) : heapT :=
  Py_XDECREF_with Py_DECREF op hp.

Definition quadraticelement2_dealloc (op : addr) (hp : heapT) : heapT :=
  quadraticelement2_dealloc_with Py_DECREF op hp.

(** Reading and writing the two fields through their offsets. *)
Definition get_field (f : field_offset) (qe : quadraticelement2object) : option addr :=
  match f with
  | offsetof_a => qe_a qe
  | offsetof_b => qe_b qe
  end.

Definition set_field (f : field_offset) (v : option addr)
    (qe : quadraticelement2object) : quadraticelement2object :=
  match f with
  | offsetof_a => {| qe_a := v; qe_b := qe_b qe |}
  | offsetof_b => {| qe_a := qe_a qe; qe_b := v |}
  end.

(** The element stored at [op], when [op] is one. *)
Definition as_element (hp : heapT) (op : addr) : option quadraticelement2object :=
  match ob_body <$> hp !! op with
  | Some (QE2 qe) => Some qe
  | _ => None
  end.

Definition store_field (op : addr) (f : field_offset) (v : option addr)
    (hp : heapT) : heapT :=
  alter (fun o =>
    match ob_body o with
    | QE2 qe => set_body (QE2 (set_field f v qe)) o
    | _ => o
    end) op hp.

(** [Py_VISIT(op)]: [if (op) { int vret = visit(op, arg); if (vret) return
    vret; }], followed by the rest [k] of the function.  The visitor works
    on the collector's state [S], reached through [arg]. *)
Definition Py_VISIT {S : Type} (visit : addr -> S -> Z * S)
    (op : option addr) (arg : S) (k : S -> Z * S) : Z * S :=
  match op with
  | None => k arg
  | Some p =>
      let '(vret, arg') := visit p arg in
      if vret =? 0 then k arg' else (vret, arg')
  end.

(** <<
    quadraticelement2object* qe = quadraticelement2object_CAST(op);
    Py_VISIT(Py_TYPE(qe));
    Py_VISIT(qe->a);
    Py_VISIT(qe->b);
    return 0;
>> *)
Definition quadraticelement2_traverse {S : Type} (hp : heapT) (op : addr)
    (visit : addr -> S -> Z * S) (arg : S) : Z * S :=
  match hp !! op with
  | Some o =>
      match ob_body o with
      | QE2 qe =>
          Py_VISIT visit (type_ptr (ob_type o)) arg (fun arg =>
          Py_VISIT visit (qe_a qe) arg (fun arg =>
          Py_VISIT visit (qe_b qe) arg (fun arg =>
          (0, arg))))
      | _ => (0, arg)
      end
  | None => (0, arg)
  end.

(** [Py_CLEAR(qe->f)]: [PyObject* tmp = qe->f; if (tmp != NULL)
    { qe->f = NULL; Py_DECREF(tmp); }]. *)
Definition Py_CLEAR (op : addr) (f : field_offset) (hp : heapT) : heapT :=
  match as_element hp op with
  | Some qe =>
      match get_field f qe with
      | Some tmp => Py_DECREF tmp (store_field op f None hp)
      | None => hp
      end
  | None => hp
  end.

(** <<
    quadraticelement2object* qe = quadraticelement2object_CAST(op);
    Py_CLEAR(qe->a);
    Py_CLEAR(qe->b);
    return 0;
>> *)
Definition quadraticelement2_clear (op : addr) (hp : heapT) : Z * heapT :=
  let hp := Py_CLEAR op offsetof_a hp in
  let hp := Py_CLEAR op offsetof_b hp in
  (0, hp).

(** ** The type: members, slots and spec *)

Definition quadraticelement2_members : list PyMemberDef :=
  [ {| name := "a"; type := Py_T_OBJECT_EX; offset := offsetof_a; flags := Py_READONLY |};
    {| name := "b"; type := Py_T_OBJECT_EX; offset := offsetof_b; flags := Py_READONLY |} ].

(** The entries of the table that are not commented out, in order. *)
Definition quadraticelement2_slots : list PyType_Slot :=
  [ (Py_tp_dealloc, Fn quadraticelement2_dealloc_fn);
    (Py_tp_traverse, Fn quadraticelement2_traverse_fn);
    (Py_tp_clear, Fn quadraticelement2_clear_fn);
    (Py_tp_members, Members quadraticelement2_members);
    (Py_tp_new, Fn quadraticelement2_new_fn) ].

Definition quadraticelement2_spec : PyType_Spec :=
  {| spec_name := "radicalfield._quadraticelement2.QuadraticElement2";
     spec_flags := [Py_TPFLAGS_DEFAULT; Py_TPFLAGS_HAVE_GC; Py_TPFLAGS_IMMUTABLETYPE];
     spec_slots := quadraticelement2_slots |}.

(** ** Host functions used by the constructor *)

(** A new [int] object: one allocation, which may fail, and a fresh
    address holding the value with one reference, owned by the caller. *)
Definition new_long (z : Z) (h : host) : result addr * host :=
  let '(ok, h) := take_alloc h in
  if ok then
    let p := fresh (dom (heap h)) in
    (Ok p, with_heap (<[p := {| ob_refcnt := 1; ob_type := PyLong_Type;
                                ob_body := Long z |}]> (heap h)) h)
  else (Raise MemoryError, h).

(** [PyLong_FromLong(v)]: a new reference to an [int] of value [v], or
    [NULL] on failure. *)
Definition PyLong_FromLong (v : Z) (h : host) : result addr * host :=
  new_long v h.

(** [PyType_GenericAlloc(type, 0)], the [tp_alloc] every type inherits
    that does not fill [Py_tp_alloc]: one allocation, which may fail; the
    new object is zeroed (both fields [NULL]), has one reference and
    holds a counted reference to its heap type. *)
Definition PyType_GenericAlloc (type : addr) (h : host) : result addr * host :=
  let '(ok, h) := take_alloc h in
  if ok then
    let p := fresh (dom (heap h)) in
    (Ok p, with_heap (<[p := {| ob_refcnt := 1; ob_type := HeapType type;
                                ob_body := QE2 {| qe_a := None; qe_b := None |} |}]>
                        (Py_INCREF type (heap h))) h)
  else (Raise MemoryError, h).

(** [PyArg_ParseTupleAndKeywords(args, kwds, "|O...O", kwlist, ...)] for a
    format of optional objects only.  [args] is the tuple of positional
    arguments and [kwds] the dictionary of keyword arguments (empty when
    [kwds] is [NULL]).  The call is rejected when it has more arguments
    than names, and when a keyword is left over after every name took its
    value: one that is no name of [kwlist] or that names a parameter
    already given by position.  An ["O"] item stores the argument as it is,
    as a borrowed reference; a parameter without argument stays [NULL]. *)
Definition PyArg_ParseTupleAndKeywords (args : list addr)
    (kwds : gmap string addr) (kwlist : list string) : result (list (option addr)) :=
  let nargs := length args in
  if decide (length kwlist < nargs + size kwds)%nat then Raise TypeError
  else
    let vals := imap (fun i nm =>
                  if decide (i < nargs)%nat then args !! i else kwds !! nm) kwlist in
    let taken := length (filter is_Some (drop nargs vals)) in
    if decide (taken < size kwds)%nat then Raise TypeError else Ok vals.

(** ** The constructor *)

(** [static char* kwlist[] = {"a", "b", NULL};] *)
Definition kwlist : list string := ["a"; "b"].

(** <<
    if(!a) { a = PyLong_FromLong(0); if(!a) return NULL; }
    else   { Py_INCREF(a); }
>>
    The owned reference, or the failure of [PyLong_FromLong]. *)
Definition acquire_or_zero (a : option addr) (h : host) : result addr * host :=
  match a with
  | None => PyLong_FromLong 0 h
  | Some a => (Ok a, with_heap (Py_INCREF a (heap h)) h)
  end.

Definition quadraticelement2_new (type : addr) (args : list addr)
    (kwds : gmap string addr) (h : host) : result addr * host :=
  match PyArg_ParseTupleAndKeywords args kwds kwlist with
  | Raise e => (Raise e, h)
  | Ok [a; b] =>
      let '(ra, h) := acquire_or_zero a h in
      match ra with
      | Raise e => (Raise e, h)
      | Ok a =>
          let '(rb, h) := acquire_or_zero b h in
          match rb with
          | Raise e => (Raise e, with_heap (Py_DECREF a (heap h)) h)
          | Ok b =>
              let '(rqe, h) := PyType_GenericAlloc type h in
              match rqe with
              | Raise e =>
                  (Raise e, with_heap (Py_DECREF b (Py_DECREF a (heap h))) h)
              | Ok qe =>
                  (Ok qe, with_heap (store_field qe offsetof_b (Some b)
                                      (store_field qe offsetof_a (Some a) (heap h))) h)
              end
          end
      end
  | Ok _ => (Raise SystemError, h)
  end.

(** ** Attribute access through the member table *)

Definition type_members (hp : heapT) (t : typeref) : list PyMemberDef :=
  match slot_lookup Py_tp_members (type_slots hp t) with
  | Some (Members m) => m
  | _ => []
  end.

Definition find_member (nm : string) (tbl : list PyMemberDef) : option PyMemberDef :=
  List.find (fun m => String.eqb (name m) nm) tbl.

(** [PyMember_GetOne] for [Py_T_OBJECT_EX]: a new reference to the stored
    object, [AttributeError] when the field is [NULL]. *)
Definition PyMember_GetOne (obj : addr) (m : PyMemberDef) (hp : heapT)
    : result addr * heapT :=
  match as_element hp obj with
  | Some qe =>
      match get_field (offset m) qe with
      | Some v => (Ok v, Py_INCREF v hp)
      | None => (Raise AttributeError, hp)
      end
  | None => (Raise SystemError, hp)
  end.

(** [PyMember_SetOne]: [if (l->flags & Py_READONLY)] the store is refused
    with [AttributeError] before anything else is looked at; otherwise a
    [Py_T_OBJECT_EX] member is rebound ([v = NULL] deletes, and fails on a
    field that is already [NULL]). *)
Definition PyMember_SetOne (obj : addr) (m : PyMemberDef) (v : option addr)
    (hp : heapT) : result unit * heapT :=
  if negb (Z.land (flags m) Py_READONLY =? 0) then (Raise AttributeError, hp)
  else
    match as_element hp obj with
    | Some qe =>
        let oldv := get_field (offset m) qe in
        match v, oldv with
        | None, None => (Raise AttributeError, hp)
        | _, _ =>
            (Ok tt, Py_XDECREF oldv (store_field obj (offset m) v (Py_XINCREF v hp)))
        end
    | None => (Raise SystemError, hp)
    end.

(** [getattr(obj, nm)] for a member name: the member descriptor of the
    type reads the field.  Other names are answered by the attributes every
    object inherits, which touch no field and are left out ([None]). *)
Definition member_getattr (obj : addr) (nm : string) (hp : heapT)
    : option (result addr * heapT) :=
  match Py_TYPE hp obj with
  | Some t =>
      match find_member nm (type_members hp t) with
      | Some m => Some (PyMember_GetOne obj m hp)
      | None => None
      end
  | None => None
  end.

(** [setattr(obj, nm, v)] and, with [v = NULL], [delattr(obj, nm)], on an
    instance of a type without instance dictionary, as the elements are
    ([basicsize] is [sizeof(quadraticelement2object)] and the spec asks for
    no dictionary): a member name goes to [PyMember_SetOne]; [__class__],
    the one settable attribute inherited from [object], is refused with
    [TypeError] for an immutable type; any other name has nowhere to be
    stored. *)
Definition PyObject_GenericSetAttr (obj : addr) (nm : string) (v : option addr)
    (hp : heapT) : result unit * heapT :=
  match Py_TYPE hp obj with
  | Some t =>
      match find_member nm (type_members hp t) with
      | Some m => PyMember_SetOne obj m v hp
      | None =>
          if String.eqb nm "__class__" then (Raise TypeError, hp)
          else (Raise AttributeError, hp)
      end
  | None => (Raise SystemError, hp)
  end.

(** ** Operator dispatch of the host *)

#[global] Instance cfunc_eq_dec : EqDecision cfunc.
Proof. solve_decision. Defined.
#[global] Instance field_offset_eq_dec : EqDecision field_offset.
Proof. solve_decision. Defined.
#[global] Instance member_type_eq_dec : EqDecision member_type.
Proof. solve_decision. Defined.
#[global] Instance PyMemberDef_eq_dec : EqDecision PyMemberDef.
Proof. solve_decision. Defined.
#[global] Instance pfunc_eq_dec : EqDecision pfunc.
Proof. solve_decision. Defined.

(** What a binary slot function hands back: an object or an exception,
    or the [NotImplemented] singleton. *)
Inductive binres :=
  | Returned (r : result addr)
  | NotImplemented.

Definition long_value (hp : heapT) (op : addr) : option Z :=
  match ob_body <$> hp !! op with
  | Some (Long z) => Some z
  | _ => None
  end.

(** [long_add] and [long_mul]: [CHECK_BINOP] answers [NotImplemented]
    unless both operands are [int]; the result is a new [int]. *)
Definition long_binop (f : Z -> Z -> Z) (v w : addr) (h : host) : binres * host :=
  match long_value (heap h) v, long_value (heap h) w with
  | Some x, Some y => let '(r, h) := new_long (f x y) h in (Returned r, h)
  | _, _ => (NotImplemented, h)
  end.

(** Calling a slot as a [binaryfunc].  No function of the file has that
    signature; a pointer to one of them in a number slot would be a
    wrongly typed slot. *)
Definition call_binaryfunc (f : pfunc) (v w : addr) (h : host) : binres * host :=
  match f with
  | Fn long_add_fn => long_binop Z.add v w h
  | Fn long_mul_fn => long_binop Z.mul v w h
  | _ => (Returned (Raise SystemError), h)
  end.

(** [binary_op1] (Objects/abstract.c): the slot of the left operand's
    type, then that of the right operand's type when the types differ and
    the slots are not the same function.  (The precedence of a right
    operand whose type is a proper subclass of the left one's does not
    arise: no type of the model with a number slot has a subclass.) *)
Definition binary_op1 (v w : addr) (op_slot : slot_id) (h : host) : binres * host :=
  match Py_TYPE (heap h) v, Py_TYPE (heap h) w with
  | Some tv, Some tw =>
      let slotv := type_slot (heap h) tv op_slot in
      let slotw :=
        if decide (tw = tv) then None
        else
          let s := type_slot (heap h) tw op_slot in
          if decide (s = slotv) then None else s in
      let '(x, h) :=
        match slotv with
        | Some f => call_binaryfunc f v w h
        | None => (NotImplemented, h)
        end in
      match x with
      | Returned r => (Returned r, h)
      | NotImplemented =>
          match slotw with
          | Some f => call_binaryfunc f v w h
          | None => (NotImplemented, h)
          end
      end
  | _, _ => (Returned (Raise SystemError), h)
  end.

(** [PyNumber_Add], behind [v + w]: [nb_add] through [binary_op1], then
    [sq_concat] of the left operand's type, then [TypeError] (unsupported
    operand types). *)
Definition PyNumber_Add (v w : addr) (h : host) : binres * host :=
  let '(x, h) := binary_op1 v w Py_nb_add h in
  match x with
  | Returned r => (Returned r, h)
  | NotImplemented =>
      match Py_TYPE (heap h) v ≫= (fun tv => type_slot (heap h) tv Py_sq_concat) with
      | Some f => call_binaryfunc f v w h
      | None => (Returned (Raise TypeError), h)
      end
  end.

(** [sequence_repeat]: the count must be an [int]; then the slot is
    called as a [ssizeargfunc], a signature no function of the model has. *)
Definition sequence_repeat (f : pfunc) (seq n : addr) (h : host) : binres * host :=
  match long_value (heap h) n with
  | Some _ => (Returned (Raise SystemError), h)
  | None => (Returned (Raise TypeError), h)
  end.

(** [PyNumber_Multiply], behind [v * w]: [nb_multiply] through
    [binary_op1], then [sq_repeat] of the left and of the right operand's
    type, then [TypeError]. *)
Definition PyNumber_Multiply (v w : addr) (h : host) : binres * host :=
  let '(x, h) := binary_op1 v w Py_nb_multiply h in
  match x with
  | Returned r => (Returned r, h)
  | NotImplemented =>
      let mv := Py_TYPE (heap h) v ≫= (fun t => type_slot (heap h) t Py_sq_repeat) in
      let mw := Py_TYPE (heap h) w ≫= (fun t => type_slot (heap h) t Py_sq_repeat) in
      match mv, mw with
      | Some f, _ => sequence_repeat f v w h
      | None, Some f => sequence_repeat f w v h
      | None, None => (Returned (Raise TypeError), h)
      end
  end.

(** Calling a slot as a [richcmpfunc] with [Py_EQ]; [None] stands for
    [NotImplemented].  [object_richcompare] answers [Py_True] for the same
    object and [NotImplemented] otherwise; [long_richcompare] compares the
    values of two [int]s. *)
Definition call_richcmpfunc_EQ (f : pfunc) (v w : addr) (hp : heapT)
    : result (option bool) :=
  match f with
  | Fn object_richcompare_fn =>
      Ok (if decide (v = w) then Some true else None)
  | Fn long_richcompare_fn =>
      match long_value hp v, long_value hp w with
      | Some x, Some y => Ok (Some (x =? y))
      | _, _ => Ok None
      end
  | _ => Raise SystemError
  end.

Definition try_richcmp_EQ (f : option pfunc) (v w : addr) (hp : heapT)
    : result (option bool) :=
  match f with
  | Some f => call_richcmpfunc_EQ f v w hp
  | None => Ok None
  end.

Fixpoint first_implemented (attempts : list (result (option bool)))
    (dflt : bool) : result bool :=
  match attempts with
  | [] => Ok dflt
  | Raise e :: _ => Raise e
  | Ok (Some b) :: _ => Ok b
  | Ok None :: rest => first_implemented rest dflt
  end.

(** [PyType_IsSubtype(a, b)] on the types of the model: every type
    derives from [object] and from nothing else. *)
Definition PyType_IsSubtype (a b : typeref) : bool :=
  bool_decide (a = b) || bool_decide (b = PyBaseObject_Type).

(** [PyObject_RichCompare(v, w, Py_EQ)], behind [v == w]
    ([do_richcompare], Objects/object.c): the reflected comparison first
    when the right type is a proper subclass of the left one, the
    [tp_richcompare] of the left type, the reflected one if not tried yet,
    and when all answered [NotImplemented] the identity of the operands. *)
Definition PyObject_RichCompare_EQ (v w : addr) (hp : heapT) : result bool :=
  match Py_TYPE hp v, Py_TYPE hp w with
  | Some tv, Some tw =>
      let fv := type_slot hp tv Py_tp_richcompare in
      let fw := type_slot hp tw Py_tp_richcompare in
      let checked_reverse_op :=
        negb (bool_decide (tv = tw)) && PyType_IsSubtype tw tv
        && bool_decide (is_Some fw) in
      first_implemented
        [ if checked_reverse_op then try_richcmp_EQ fw w v hp else Ok None;
          try_richcmp_EQ fv v w hp;
          if checked_reverse_op then Ok None else try_richcmp_EQ fw w v hp ]
        (bool_decide (v = w))
  | _, _ => Raise SystemError
  end.

(** The operator surface of the elements as the host evaluates it. *)
Definition add (x y : addr) (h : host) : binres * host := PyNumber_Add x y h.
Definition multiply (x y : addr) (h : host) : binres * host := PyNumber_Multiply x y h.
Definition equals (x y : addr) (hp : heapT) : result bool := PyObject_RichCompare_EQ x y hp.

(** ** The module *)

(** The part of [s] before and after its last dot ([strrchr(s, '.')]). *)
Fixpoint rsplit_dot (s : string) : option (string * string) :=
  match s with
  | EmptyString => None
  | String c s' =>
      match rsplit_dot s' with
      | Some (pre, post) => Some (String c pre, post)
      | None => if Ascii.eqb c "."%char then Some (EmptyString, s') else None
      end
  end.

(** [_PyType_Name]: the part of [tp_name] after the last dot, the whole
    of it if there is none. *)
Definition _PyType_Name (tp_name : string) : string :=
  match rsplit_dot tp_name with
  | Some (_, s) => s
  | None => tp_name
  end.

(** The type object that [PyType_FromModuleAndSpec] fills in from a
    spec: [tp_name] is the name of the spec, [__name__] its last component
    and [__module__] what precedes it; the slots of the spec are copied,
    and the type remembers its module. *)
Definition type_of_spec (module : addr) (spec : PyType_Spec) : PyTypeObject :=
  {| tp_name := spec_name spec;
     ht_name := _PyType_Name (spec_name spec);
     tp_module := fst <$> rsplit_dot (spec_name spec);
     tp_flags := Py_TPFLAGS_HEAPTYPE :: spec_flags spec;
     tp_slots := spec_slots spec;
     ht_module := Some module |}.

(** [PyType_FromModuleAndSpec(module, spec, NULL)]: a new heap type, or
    [NULL] when the host cannot build it.  The type holds a reference to
    its module. *)
Definition PyType_FromModuleAndSpec (module : addr) (spec : PyType_Spec)
    (h : host) : result addr * host :=
  let '(ok, h) := take_alloc h in
  if ok then
    let p := fresh (dom (heap h)) in
    (Ok p, with_heap (<[p := {| ob_refcnt := 1; ob_type := PyType_Type;
                                ob_body := TypeObj (type_of_spec module spec) |}]>
                        (Py_INCREF module (heap h))) h)
  else (Raise MemoryError, h).

Definition as_module (hp : heapT) (op : addr) : option PyModuleObject :=
  match ob_body <$> hp !! op with
  | Some (ModuleObj m) => Some m
  | _ => None
  end.

Definition as_type (hp : heapT) (op : addr) : option PyTypeObject :=
  match ob_body <$> hp !! op with
  | Some (TypeObj t) => Some t
  | _ => None
  end.

Definition set_module (module : addr) (m : PyModuleObject) (hp : heapT) : heapT :=
  alter (fun o =>
    match ob_body o with
    | ModuleObj _ => set_body (ModuleObj m) o
    | _ => o
    end) module hp.

(** [PyModule_AddType(module, type)]: [PyModule_AddObjectRef] under the
    name [_PyType_Name(type)].  The dictionary of the module takes its own
    reference to the type and gives up the object the name was bound to
    before, if any; the insertion may fail. *)
Definition PyModule_AddType (module : addr) (type : addr) (h : host)
    : result unit * host :=
  match as_module (heap h) module, as_type (heap h) type with
  | Some m, Some ty =>
      let '(ok, h) := take_alloc h in
      if ok then
        let nm := _PyType_Name (tp_name ty) in
        let old := md_dict m !! nm in
        let m' := {| md_dict := <[nm := type]> (md_dict m); md_state := md_state m |} in
        (Ok tt, with_heap (Py_XDECREF old
                            (set_module module m' (Py_INCREF type (heap h)))) h)
      else (Raise MemoryError, h)
  | None, _ => (Raise TypeError, h)
  | Some _, None => (Raise SystemError, h)
  end.

(** [state->QuadraticElement2_Type = ...] on the state that
    [PyModule_GetState(mod)] returns. *)
Definition set_state_type (module : addr) (tp : option addr) (hp : heapT) : heapT :=
  match as_module hp module with
  | Some m =>
      set_module module {| md_dict := md_dict m;
                           md_state := {| QuadraticElement2_Type := tp |} |} hp
  | None => hp
  end.

(** <<
    module_state* state = PyModule_GetState(mod);
    state->QuadraticElement2_Type =
        PyType_FromModuleAndSpec(mod, &quadraticelement2_spec, NULL);
    if(state->QuadraticElement2_Type == NULL) { return -1; }
    if(PyModule_AddType(mod, state->QuadraticElement2_Type) < 0) { return -1; }
    return 0;
>> *)
Definition module_exec (module : addr) (h : host) : Z * host :=
  let '(r, h) := PyType_FromModuleAndSpec module quadraticelement2_spec h in
  let tp := match r with Ok p => Some p | Raise _ => None end in
  let h := with_heap (set_state_type module tp (heap h)) h in
  match tp with
  | None => (-1, h)
  | Some tp =>
      let '(r, h) := PyModule_AddType module tp h in
      match r with
      | Raise _ => (-1, h)
      | Ok _ => (0, h)
      end
  end.

(** <<
    module_state* state = PyModule_GetState(mod);
    Py_VISIT(state->QuadraticElement2_Type);
    return 0;
>> *)
Definition module_traverse {S : Type} (hp : heapT) (module : addr)
    (visit : addr -> S -> Z * S) (arg : S) : Z * S :=
  match as_module hp module with
  | Some m =>
      Py_VISIT visit (QuadraticElement2_Type (md_state m)) arg (fun arg =>
      (0, arg))
  | None => (0, arg)
  end.

(** <<
    module_state* state = PyModule_GetState(mod);
    Py_CLEAR(state->QuadraticElement2_Type);
    return 0;
>>
    [Py_CLEAR] on the pointer of the state: when it is not [NULL] it is
    set to [NULL] first and the reference is dropped after. *)
Definition module_clear (module : addr) (hp : heapT) : Z * heapT :=
  match as_module hp module with
  | Some m =>
      match QuadraticElement2_Type (md_state m) with
      | Some tmp => (0, Py_DECREF tmp (set_state_type module None hp))
      | None => (0, hp)
      end
  | None => (0, hp)
  end.

(** [(void)module_clear((PyObject* )mod);] *)
Definition module_free (module : addr) (hp : heapT) : heapT :=
  snd (module_clear module hp).

(** ** Vocabulary of the statements *)

(** Every object of the heap is referenced: its count is positive. *)
Definition positive_counts (hp : heapT) : Prop :=
  map_Forall (fun _ o => 0 < ob_refcnt o) hp.

(** The arguments of a call are borrowed references to objects of the
    heap. *)
Definition live_arguments (hp : heapT) (args : list addr)
    (kwds : gmap string addr) : Prop :=
  Forall (fun a => is_Some (hp !! a)) args /\
  map_Forall (fun _ a => is_Some (hp !! a)) kwds.

(** The object [new_long z] creates. *)
Definition int_object (z : Z) : PyObject :=
  {| ob_refcnt := 1; ob_type := PyLong_Type; ob_body := Long z |}.

(** What [acquire_or_zero] does to the heap when it returns [p]: one more
    reference to an object that was there, or a new [int] zero at [p]. *)
Definition acquired (hp : heapT) (p : addr) (hp1 : heapT) : Prop :=
  (is_Some (hp !! p) /\ hp1 = Py_INCREF p hp)
  \/ (hp !! p = None /\ hp1 = <[p := int_object 0]> hp).

(** The next [n] allocations of the host succeed. *)
Definition no_failure_within (n : nat) (h : host) : Prop :=
  Forall (fun ok => ok = true) (take n (allocs h)).

(** [hp2] has the objects of [hp1] or fewer, each with the body it had. *)
Definition shrinks (hp1 hp2 : heapT) : Prop :=
  forall i, hp2 !! i = None \/ ob_body <$> hp2 !! i = ob_body <$> hp1 !! i.

(** An object that something refers to, and heaps that gain no such
    object: [hp2] has no referenced object that [hp1] has not. *)
Definition referenced (hp : heapT) (i : addr) : Prop :=
  exists o, hp !! i = Some o /\ 0 < ob_refcnt o.

Definition no_gain (hp1 hp2 : heapT) : Prop :=
  forall i, referenced hp2 i -> referenced hp1 i.

(** The type at [tp] carries the slot table of [quadraticelement2_spec],
    and [x] is an instance of it. *)
Definition element_type (hp : heapT) (tp : addr) : Prop :=
  type_slots hp (HeapType tp) = spec_slots quadraticelement2_spec.

Definition element (hp : heapT) (x : addr) : Prop :=
  exists tp, Py_TYPE hp x = Some (HeapType tp) /\ element_type hp tp
             /\ is_Some (as_element hp x).

(** The exact integers an element stands for, [(a, b)] for [a + b√2],
    when both of its fields hold an [int]. *)
Definition element_value (hp : heapT) (x : addr) : option (Z * Z) :=
  qe ← as_element hp x;
  pa ← qe_a qe; pb ← qe_b qe;
  za ← long_value hp pa; zb ← long_value hp pb;
  Some (za, zb).

(** Whether the host can convert the object to an [int] ([int(x)],
    [PyNumber_Index]): of the objects of the model only an [int] can; a
    type made from [quadraticelement2_spec] fills no conversion slot. *)
Definition convertible_to_int (hp : heapT) (x : addr) : bool :=
  bool_decide (is_Some (long_value hp x)).

(** The visitor called on each pointer of [ps] in turn, up to the first
    call that does not return zero. *)
Fixpoint visit_each {S : Type} (visit : addr -> S -> Z * S)
    (ps : list addr) (arg : S) : Z * S :=
  match ps with
  | [] => (0, arg)
  | p :: ps =>
      let '(vret, arg') := visit p arg in
      if vret =? 0 then visit_each visit ps arg' else (vret, arg')
  end.

(** The counted references an element holds: its type and its fields
    that are not [NULL]. *)
Definition owned_references (o : PyObject) (qe : quadraticelement2object)
    : list addr :=
  omap id [type_ptr (ob_type o); qe_a qe; qe_b qe].

(** The envelope [quadraticelement2_new] returns: one reference, the
    type, the two fields. *)
Definition element_object (type : addr) (a b : option addr) : PyObject :=
  {| ob_refcnt := 1; ob_type := HeapType type;
     ob_body := QE2 {| qe_a := a; qe_b := b |} |}.


(** A call the constructor can take: at most two positional arguments,
    and no keyword but [a], when nothing is given by position, and [b],
    when at most one argument is. *)
Definition well_shaped_call (args : list addr) (kwds : gmap string addr) : Prop :=
  (length args <= 2)%nat /\
  forall k, is_Some (kwds !! k) ->
    (k = "a" /\ length args = 0%nat) \/ (k = "b" /\ (length args <= 1)%nat).

(** The argument for the parameter at position [i] named [nm]: the
    positional one if there is one, else the keyword one, else [NULL]. *)
Definition argument_of (args : list addr) (kwds : gmap string addr)
    (i : nat) (nm : string) : option addr :=
  match args !! i with
  | Some x => Some x
  | None => kwds !! nm
  end.


(** ** Sample host states *)

(** A host that holds the freshly created, still empty module and
    [None]. *)
Definition fresh_module : PyObject :=
  {| ob_refcnt := 1; ob_type := PyModule_Type;
     ob_body := ModuleObj {| md_dict := ∅;
                             md_state := {| QuadraticElement2_Type := None |} |} |}.

Definition none_object : PyObject :=
  {| ob_refcnt := 1; ob_type := PyNone_Type; ob_body := NoneObj |}.

Definition boot (schedule : list bool) : host :=
  {| heap := <[2%positive := none_object]> (<[1%positive := fresh_module]> ∅);
     allocs := schedule |}.

(** After [module_exec]: the type is at address 3. *)
Definition loaded (schedule : list bool) : host :=
  with_heap (heap (snd (module_exec 1%positive (boot [])))) (boot schedule).

(** The [int]s 1, 2, 3, 4 at addresses 4 to 7. *)
Definition with_ints (schedule : list bool) : host :=
  let h := loaded [] in
  let h := snd (new_long 1 h) in
  let h := snd (new_long 2 h) in
  let h := snd (new_long 3 h) in
  let h := snd (new_long 4 h) in
  with_heap (heap h) (boot schedule).

(** [construct(1, 2)] at address 8 and [construct(3, 4)] at address 9. *)
Definition two_elements : host :=
  let h := with_ints [] in
  let h := snd (quadraticelement2_new 3%positive [4; 5]%positive ∅ h) in
  snd (quadraticelement2_new 3%positive [6; 7]%positive ∅ h).

(** [construct(1, 2)] twice, at addresses 8 and 9. *)
Definition twins : host :=
  let h := with_ints [] in
  let h := snd (quadraticelement2_new 3%positive [4; 5]%positive ∅ h) in
  snd (quadraticelement2_new 3%positive [4; 5]%positive ∅ h).

(** * Properties *)

(** ** Reference counting *)

Lemma Py_DECREF_absent (hp : heapT) p : hp !! p = None -> Py_DECREF p hp = hp.
Proof. intros H. unfold Py_DECREF. simpl. by rewrite H. Qed.

Lemma Py_DECREF_shared (hp : heapT) p o :
  hp !! p = Some o -> ob_refcnt o ≠ 1 ->
  Py_DECREF p hp = <[p := set_refcnt (ob_refcnt o - 1) o]> hp.
Proof.
  intros H Hn. unfold Py_DECREF. simpl. rewrite H.
  destruct (Z.eqb_spec (ob_refcnt o - 1) 0); [lia | done].
Qed.

Lemma Py_DECREF_last_long (hp : heapT) p o :
  hp !! p = Some o -> ob_refcnt o = 1 -> ob_type o = PyLong_Type ->
  Py_DECREF p hp = delete p hp.
Proof.
  intros H Hn Ht. unfold Py_DECREF. simpl. rewrite H, Hn, Ht. simpl.
  by rewrite delete_insert_eq.
Qed.

Lemma Py_INCREF_DECREF (hp : heapT) p :
  (forall o, hp !! p = Some o -> ob_refcnt o ≠ 0) ->
  Py_DECREF p (Py_INCREF p hp) = hp.
Proof.
  intros Hlive. destruct (hp !! p) as [o|] eqn:Hp.
  - erewrite Py_DECREF_shared.
    2:{ unfold Py_INCREF. rewrite lookup_alter_eq, Hp. done. }
    2:{ simpl. specialize (Hlive o eq_refl). lia. }
    unfold Py_INCREF. apply map_eq. intros i. destruct (decide (i = p)) as [->|].
    + rewrite lookup_insert_eq, Hp. f_equal. destruct o; unfold set_refcnt; simpl. f_equal. lia.
    + rewrite lookup_insert_ne by done. by rewrite lookup_alter_ne.
  - rewrite Py_DECREF_absent.
    + unfold Py_INCREF. apply map_eq. intros i. destruct (decide (i = p)) as [->|].
      * by rewrite lookup_alter_eq, Hp.
      * by rewrite lookup_alter_ne.
    + unfold Py_INCREF. by rewrite lookup_alter_eq, Hp.
Qed.

Lemma Py_INCREF_comm (hp : heapT) x y :
  Py_INCREF x (Py_INCREF y hp) = Py_INCREF y (Py_INCREF x hp).
Proof.
  unfold Py_INCREF. destruct (decide (x = y)) as [->|Hne]; [done|].
  apply map_eq. intros i.
  destruct (decide (i = x)) as [Hx|Hx]; destruct (decide (i = y)) as [Hy|Hy]; subst;
    repeat first [rewrite lookup_alter_eq | rewrite lookup_alter_ne by done]; done.
Qed.

Lemma Py_INCREF_insert_ne (hp : heapT) x p o :
  x ≠ p -> Py_INCREF x (<[p := o]> hp) = <[p := o]> (Py_INCREF x hp).
Proof.
  intros Hne. unfold Py_INCREF. apply map_eq. intros i.
  destruct (decide (i = x)) as [Hx|Hx]; destruct (decide (i = p)) as [Hp|Hp]; subst;
    repeat first [rewrite lookup_alter_eq | rewrite lookup_insert_eq
                 | rewrite lookup_alter_ne by done | rewrite lookup_insert_ne by done];
    done.
Qed.

Lemma Py_DECREF_fresh_long (hp : heapT) p z :
  hp !! p = None -> Py_DECREF p (<[p := int_object z]> hp) = hp.
Proof.
  intros Hp. erewrite Py_DECREF_last_long; [|apply lookup_insert_eq|done|done].
  rewrite delete_insert_eq. by apply delete_id.
Qed.

Lemma positive_counts_INCREF (hp : heapT) x :
  positive_counts hp -> positive_counts (Py_INCREF x hp).
Proof.
  intros H i o. unfold Py_INCREF. destruct (decide (i = x)) as [->|].
  - rewrite lookup_alter_eq. destruct (hp !! x) as [o'|] eqn:E; [|done].
    intros [= <-]. simpl. specialize (H x o' E). simpl in H. lia.
  - rewrite lookup_alter_ne by done. apply H.
Qed.

Lemma positive_counts_nonzero (hp : heapT) p :
  positive_counts hp -> forall o, hp !! p = Some o -> ob_refcnt o ≠ 0.
Proof. intros H o Ho. specialize (H p o Ho). simpl in H. lia. Qed.

Lemma take_alloc_heap h : heap (snd (take_alloc h)) = heap h.
Proof. unfold take_alloc. by destruct (allocs h). Qed.

Lemma new_long_inv z h r h1 :
  new_long z h = (r, h1) ->
  (exists p, r = Ok p /\ heap h !! p = None /\ heap h1 = <[p := int_object z]> (heap h))
  \/ (r = Raise MemoryError /\ heap h1 = heap h).
Proof.
  unfold new_long. pose proof (take_alloc_heap h) as Hh.
  destruct (take_alloc h) as [[] h0]; simpl in Hh; intros [= <- <-]; simpl.
  - left. eexists. split; [done|]. rewrite Hh. split; [|done].
    apply not_elem_of_dom, is_fresh.
  - right. done.
Qed.

Lemma PyType_GenericAlloc_inv type h r h1 :
  PyType_GenericAlloc type h = (r, h1) ->
  (exists p, r = Ok p /\ heap h !! p = None /\
     heap h1 = <[p := {| ob_refcnt := 1; ob_type := HeapType type;
                         ob_body := QE2 {| qe_a := None; qe_b := None |} |}]>
                 (Py_INCREF type (heap h)))
  \/ (r = Raise MemoryError /\ heap h1 = heap h).
Proof.
  unfold PyType_GenericAlloc. pose proof (take_alloc_heap h) as Hh.
  destruct (take_alloc h) as [[] h0]; simpl in Hh; intros [= <- <-]; simpl.
  - left. eexists. split; [done|]. rewrite Hh. split; [|done].
    apply not_elem_of_dom, is_fresh.
  - right. done.
Qed.

Lemma parse_inv args kwds vals :
  PyArg_ParseTupleAndKeywords args kwds kwlist = Ok vals ->
  exists a b, vals = [a; b] /\
    (forall hp x, live_arguments hp args kwds -> (a = Some x \/ b = Some x) -> is_Some (hp !! x)).
Proof.
  unfold PyArg_ParseTupleAndKeywords. repeat case_decide; try done.
  intros [= <-]. simpl. do 2 eexists. split; [done|].
  intros hp x [Ha Hk] Hx.
  assert (Hargs : forall i, args !! i = Some x -> is_Some (hp !! x)).
  { intros i Hi. rewrite Forall_lookup in Ha. eapply Ha, Hi. }
  assert (Hkw : forall k, kwds !! k = Some x -> is_Some (hp !! x)).
  { intros k Hk'. eapply (Hk k x Hk'). }
  destruct Hx as [Hx|Hx]; repeat case_decide; eauto.
Qed.

Lemma acquire_or_zero_inv a h r h1 :
  acquire_or_zero a h = (r, h1) ->
  (forall x, a = Some x -> is_Some (heap h !! x)) ->
  (exists p, r = Ok p /\ acquired (heap h) p (heap h1) /\ (a = None <-> heap h !! p = None)
             /\ (forall x, a = Some x -> p = x))
  \/ (r = Raise MemoryError /\ heap h1 = heap h /\ a = None).
Proof.
  destruct a as [x|]; simpl.
  - intros [= <- <-] Hl. left. exists x. split; [done|]. simpl.
    specialize (Hl x eq_refl). split; [left; done|]. split; [|by intros ? [= ->]].
    split; [done|]. intros E. rewrite E in Hl. by destruct Hl.
  - intros H _. unfold PyLong_FromLong in H. apply new_long_inv in H as [(p & -> & Hp & ->)|[-> ->]].
    + left. exists p. split; [done|]. split; [right; done|]. done.
    + right. done.
Qed.

Lemma acquired_release (hp : heapT) p hp1 :
  positive_counts hp -> acquired hp p hp1 -> Py_DECREF p hp1 = hp.
Proof.
  intros Hpos [[_ ->]|[Hp ->]].
  - apply Py_INCREF_DECREF. by apply positive_counts_nonzero.
  - by apply Py_DECREF_fresh_long.
Qed.

Lemma acquired_positive (hp : heapT) p hp1 :
  positive_counts hp -> acquired hp p hp1 -> positive_counts hp1.
Proof.
  intros Hpos [[_ ->]|[Hp ->]].
  - by apply positive_counts_INCREF.
  - apply map_Forall_insert_2; [simpl; lia | done].
Qed.

Lemma Py_INCREF_lookup_None (hp : heapT) x i :
  Py_INCREF x hp !! i = None <-> hp !! i = None.
Proof.
  unfold Py_INCREF. destruct (decide (i = x)) as [->|].
  - rewrite lookup_alter_eq. by destruct (hp !! x).
  - by rewrite lookup_alter_ne.
Qed.

Lemma Py_INCREF_is_Some (hp : heapT) x i :
  is_Some (Py_INCREF x hp !! i) <-> is_Some (hp !! i).
Proof. rewrite <- !not_eq_None_Some. by rewrite Py_INCREF_lookup_None. Qed.

Lemma acquired_swap (hp : heapT) p hp1 q hp2 :
  acquired hp p hp1 -> acquired hp1 q hp2 ->
  (is_Some (hp1 !! q) -> is_Some (hp !! q)) ->
  exists hp1', acquired hp q hp1' /\ acquired hp1' p hp2.
Proof.
  intros [[Hp ->]|[Hp ->]] [[Hq ->]|[Hq ->]] Hold.
  - exists (Py_INCREF q hp). split; [left; split; [by apply Py_INCREF_is_Some in Hq|done]|].
    left. split; [by apply Py_INCREF_is_Some|]. apply Py_INCREF_comm.
  - apply Py_INCREF_lookup_None in Hq.
    assert (p ≠ q) by (intros ->; rewrite Hq in Hp; by destruct Hp).
    exists (<[q := int_object 0]> hp). split; [right; done|].
    left. split; [by rewrite lookup_insert_ne|]. by rewrite Py_INCREF_insert_ne.
  - specialize (Hold Hq).
    assert (q ≠ p) by (intros ->; rewrite Hp in Hold; by destruct Hold).
    exists (Py_INCREF q hp). split; [left; done|].
    right. split; [by apply Py_INCREF_lookup_None|]. by apply Py_INCREF_insert_ne.
  - assert (q ≠ p) by (intros ->; by rewrite lookup_insert_eq in Hq).
    rewrite lookup_insert_ne in Hq by done.
    exists (<[q := int_object 0]> hp). split; [right; done|].
    right. split; [by rewrite lookup_insert_ne|]. by apply insert_insert_ne.
Qed.

Lemma new_failure_heap type args kwds h e h' :
  positive_counts (heap h) -> live_arguments (heap h) args kwds ->
  quadraticelement2_new type args kwds h = (Raise e, h') ->
  heap h' = heap h.
Proof.
  intros Hpos Hlive. unfold quadraticelement2_new.
  destruct (PyArg_ParseTupleAndKeywords args kwds kwlist) as [vals|e0] eqn:Hparse;
    [|by intros [= <- <-]].
  apply parse_inv in Hparse as (a & b & -> & Hargs).
  destruct (acquire_or_zero a h) as [ra h1] eqn:Ha.
  apply acquire_or_zero_inv in Ha as [(pa & -> & Hacq_a & Hnew_a & _)|(-> & Hh1 & _)];
    [|by intros [= <- <-]|by eauto].
  destruct (acquire_or_zero b h1) as [rb h2] eqn:Hb.
  assert (Hb_old : forall x, b = Some x -> is_Some (heap h !! x)) by eauto.
  assert (Hb_live : forall x, b = Some x -> is_Some (heap h1 !! x)).
  { intros x Hx. specialize (Hb_old x Hx).
    destruct Hacq_a as [[_ ->]|[Hp ->]]; [by apply Py_INCREF_is_Some|].
    rewrite lookup_insert_ne; [done|]. intros ->. rewrite Hp in Hb_old. by destruct Hb_old. }
  apply acquire_or_zero_inv in Hb as [(pb & -> & Hacq_b & Hnew_b & Hsame_b)|(-> & Hh2 & _)];
    [| |done].
  2:{ intros [= <- <-]. simpl. rewrite Hh2. by eapply acquired_release. }
  destruct (PyType_GenericAlloc type h2) as [rq h3] eqn:Hq.
  apply PyType_GenericAlloc_inv in Hq as [(p & -> & _ & _)|(-> & Hh3)]; [done|].
  intros [= <- <-]. simpl. rewrite Hh3.
  destruct (acquired_swap _ _ _ _ _ Hacq_a Hacq_b) as (hp1' & Hq1 & Hq2).
  { intros Hs. destruct b as [x|].
    - rewrite (Hsame_b x eq_refl). eauto.
    - destruct Hnew_b as [Hn _]. rewrite Hn in Hs by done. by destruct Hs. }
  rewrite (acquired_release hp1' pa (heap h2)); [|by eapply acquired_positive|done].
  by eapply acquired_release.
Qed.

(** ** The constructor *)

Lemma parse_raises args kwds e :
  PyArg_ParseTupleAndKeywords args kwds kwlist = Raise e -> e = TypeError.
Proof.
  unfold PyArg_ParseTupleAndKeywords. repeat case_decide; congruence.
Qed.

Lemma long_value_ext (hp hp' : heapT) i :
  ob_body <$> hp' !! i = ob_body <$> hp !! i -> long_value hp' i = long_value hp i.
Proof. unfold long_value. by intros ->. Qed.

Lemma Py_INCREF_body (hp : heapT) x i :
  ob_body <$> Py_INCREF x hp !! i = ob_body <$> hp !! i.
Proof.
  unfold Py_INCREF. destruct (decide (i = x)) as [->|].
  - rewrite lookup_alter_eq. by destruct (hp !! x).
  - by rewrite lookup_alter_ne.
Qed.

Lemma acquire_or_zero_Ok a h p h1 :
  acquire_or_zero a h = (Ok p, h1) ->
  (a = Some p /\ heap h1 = Py_INCREF p (heap h))
  \/ (a = None /\ heap h !! p = None /\ heap h1 = <[p := int_object 0]> (heap h)).
Proof.
  destruct a as [x|]; simpl.
  - intros [= <- <-]. by left.
  - intros H. apply new_long_inv in H as [(q & [= <-] & Hq & ->)|[[=] _]]. by right.
Qed.

(** An acquisition keeps the objects of the heap, with their bodies, and
    a default is an [int] zero. *)
Lemma acquire_or_zero_frame a h p h1 :
  acquire_or_zero a h = (Ok p, h1) ->
  (forall i, is_Some (heap h !! i) ->
     is_Some (heap h1 !! i) /\ ob_body <$> heap h1 !! i = ob_body <$> heap h !! i)
  /\ (a = None -> heap h !! p = None /\ long_value (heap h1) p = Some 0)
  /\ (forall x, a = Some x -> p = x).
Proof.
  intros H. apply acquire_or_zero_Ok in H as [[-> ->]|(-> & Hp & ->)].
  - split; [|split; [done|by intros ? [= ->]]].
    intros i Hi. split; [by apply Py_INCREF_is_Some|apply Py_INCREF_body].
  - split; [|split; [|done]].
    + intros i Hi. assert (i ≠ p) by (intros ->; rewrite Hp in Hi; by destruct Hi).
      by rewrite lookup_insert_ne.
    + intros _. split; [done|]. unfold long_value. by rewrite lookup_insert_eq.
Qed.

Lemma store_field_insert (hp : heapT) qe f v o q :
  ob_body o = QE2 q ->
  store_field qe f v (<[qe := o]> hp) = <[qe := set_body (QE2 (set_field f v q)) o]> hp.
Proof.
  intros Hb. unfold store_field. rewrite alter_insert_eq. by rewrite Hb.
Qed.

Lemma new_Ok_inv type args kwds h qe h' :
  quadraticelement2_new type args kwds h = (Ok qe, h') ->
  exists a b pa pb,
    PyArg_ParseTupleAndKeywords args kwds kwlist = Ok [a; b]
    /\ heap h !! qe = None
    /\ heap h' !! qe = Some {| ob_refcnt := 1; ob_type := HeapType type;
                               ob_body := QE2 {| qe_a := Some pa; qe_b := Some pb |} |}
    /\ (forall i, is_Some (heap h !! i) ->
          ob_body <$> heap h' !! i = ob_body <$> heap h !! i)
    /\ (forall x, a = Some x -> pa = x) /\ (forall y, b = Some y -> pb = y)
    /\ (a = None -> heap h !! pa = None /\ long_value (heap h') pa = Some 0)
    /\ (b = None -> heap h !! pb = None /\ long_value (heap h') pb = Some 0).
Proof.
  unfold quadraticelement2_new.
  destruct (PyArg_ParseTupleAndKeywords args kwds kwlist) as [vals|e0] eqn:Hparse; [|done].
  destruct (parse_inv _ _ _ Hparse) as (a & b & -> & _).
  destruct (acquire_or_zero a h) as [[pa|] h1] eqn:Ha; [|done].
  destruct (acquire_or_zero b h1) as [[pb|] h2] eqn:Hb; [|done].
  destruct (PyType_GenericAlloc type h2) as [rq h3] eqn:Hq.
  apply PyType_GenericAlloc_inv in Hq as [(p & -> & Hp & Hh3)|(-> & _)]; [|done].
  intros [= <- <-]. simpl. rewrite Hh3.
  erewrite !store_field_insert by done. simpl.
  destruct (acquire_or_zero_frame _ _ _ _ Ha) as (Hfa & Hza & Hsa).
  destruct (acquire_or_zero_frame _ _ _ _ Hb) as (Hfb & Hzb & Hsb).
  assert (Hold : forall i, is_Some (heap h !! i) ->
            i ≠ p /\ ob_body <$> heap h2 !! i = ob_body <$> heap h !! i).
  { intros i Hi. destruct (Hfa i Hi) as [Hi1 E1]. destruct (Hfb i Hi1) as [Hi2 E2].
    split; [|congruence]. intros ->. rewrite Hp in Hi2. by destruct Hi2. }
  assert (Hrest : forall i, i ≠ p ->
    ob_body <$> <[p := set_body (QE2 {| qe_a := Some pa; qe_b := Some pb |})
        {| ob_refcnt := 1; ob_type := HeapType type;
           ob_body := QE2 {| qe_a := None; qe_b := None |} |}]>
        (Py_INCREF type (heap h2)) !! i = ob_body <$> heap h2 !! i).
  { intros i Hi. rewrite lookup_insert_ne by done. apply Py_INCREF_body. }
  exists a, b, pa, pb. split; [done|]. split.
  { destruct (heap h !! p) eqn:E; [|done]. destruct (Hold p) as [Hne _]; [by eexists|done]. }
  split; [by rewrite lookup_insert_eq|]. split.
  { intros i Hi. destruct (Hold i Hi) as [Hne E]. by rewrite Hrest. }
  split; [done|]. split; [done|].
  assert (Hpb : b = None -> pb ≠ p /\ long_value (heap h2) pb = Some 0).
  { intros Hb0. destruct (Hzb Hb0) as [_ Hv]. split; [|done].
    intros ->. unfold long_value in Hv. by rewrite Hp in Hv. }
  split.
  - intros Ha0. destruct (Hza Ha0) as [Hfresh Hv]. split; [done|].
    assert (Hv2 : long_value (heap h2) pa = Some 0).
    { rewrite <- Hv. apply long_value_ext. apply Hfb.
      unfold long_value in Hv. destruct (heap h1 !! pa); [by eexists|done]. }
    rewrite <- Hv2. apply long_value_ext, Hrest.
    intros ->. unfold long_value in Hv2. by rewrite Hp in Hv2.
  - intros Hb0. destruct (Hzb Hb0) as [Hfresh Hv]. destruct (Hpb Hb0) as [Hne _].
    split.
    + destruct (heap h !! pb) eqn:E; [|done].
      destruct (Hfa pb) as [Hs _]; [by eexists|]. rewrite Hfresh in Hs. by destruct Hs.
    + rewrite <- Hv. by apply long_value_ext, Hrest.
Qed.

Lemma no_failure_take_alloc n h :
  no_failure_within (S n) h ->
  exists h1, take_alloc h = (true, h1) /\ heap h1 = heap h /\ no_failure_within n h1.
Proof.
  unfold no_failure_within, take_alloc. destruct h as [hp [|ok rest]]; simpl.
  - intros _. eexists. split; [done|]. split; [done|]. simpl. by rewrite take_nil.
  - intros H. inversion H as [|? ? Hok Hrest]; subst. eexists. split; [done|]. done.
Qed.

Lemma no_failure_weaken n h : no_failure_within (S n) h -> no_failure_within n h.
Proof.
  unfold no_failure_within. intros H.
  rewrite Forall_lookup in H |- *. intros i ok Hi.
  apply lookup_take_Some in Hi as [Hi Hlt]. apply (H i).
  rewrite lookup_take_lt by lia. done.
Qed.

Lemma acquire_or_zero_succeeds n a h :
  no_failure_within (S n) h ->
  exists p h1, acquire_or_zero a h = (Ok p, h1) /\ no_failure_within n h1.
Proof.
  intros H. destruct a as [x|]; simpl.
  - do 2 eexists. split; [done|]. by apply no_failure_weaken.
  - unfold PyLong_FromLong, new_long.
    destruct (no_failure_take_alloc _ _ H) as (h1 & -> & _ & Hn).
    do 2 eexists. split; [done|]. done.
Qed.

Lemma new_succeeds type args kwds h a b :
  PyArg_ParseTupleAndKeywords args kwds kwlist = Ok [a; b] ->
  no_failure_within 3 h ->
  exists qe h', quadraticelement2_new type args kwds h = (Ok qe, h').
Proof.
  intros Hparse H3. unfold quadraticelement2_new. rewrite Hparse.
  destruct (acquire_or_zero_succeeds _ a _ H3) as (pa & h1 & -> & H2).
  destruct (acquire_or_zero_succeeds _ b _ H2) as (pb & h2 & -> & H1).
  unfold PyType_GenericAlloc.
  destruct (no_failure_take_alloc _ _ H1) as (h3 & -> & _ & _).
  by do 2 eexists.
Qed.

Lemma new_failure_cause type args kwds h e h' :
  quadraticelement2_new type args kwds h = (Raise e, h') ->
  (e = TypeError /\ PyArg_ParseTupleAndKeywords args kwds kwlist = Raise TypeError)
  \/ (e = MemoryError /\ ~ no_failure_within 3 h).
Proof.
  intros H.
  destruct (PyArg_ParseTupleAndKeywords args kwds kwlist) as [vals|e0] eqn:Hparse.
  - right. destruct (parse_inv _ _ _ Hparse) as (a & b & -> & _). split.
    + revert H. unfold quadraticelement2_new. rewrite Hparse.
      destruct (acquire_or_zero a h) as [ra h1] eqn:Ha.
      assert (ra = Raise MemoryError \/ exists p, ra = Ok p) as [->|[pa ->]].
      { destruct a; simpl in Ha; [injection Ha as <- _; eauto|].
        apply new_long_inv in Ha as [(p & -> & _)|[-> _]]; eauto. }
      { by intros [= <- _]. }
      destruct (acquire_or_zero b h1) as [rb h2] eqn:Hb.
      assert (rb = Raise MemoryError \/ exists p, rb = Ok p) as [->|[pb ->]].
      { destruct b; simpl in Hb; [injection Hb as <- _; eauto|].
        apply new_long_inv in Hb as [(p & -> & _)|[-> _]]; eauto. }
      { by intros [= <- _]. }
      destruct (PyType_GenericAlloc type h2) as [rq h3] eqn:Hq.
      apply PyType_GenericAlloc_inv in Hq as [(p & -> & _)|(-> & _)]; [done|].
      by intros [= <- _].
    + intros H3. destruct (new_succeeds type _ _ _ _ _ Hparse H3) as (qe & h'' & E).
      congruence.
  - left. pose proof (parse_raises _ _ _ Hparse) as ->.
    unfold quadraticelement2_new in H. rewrite Hparse in H. by injection H as <- _.
Qed.

(** How calls are parsed: [construct(x)], [construct(x, b=y)] and
    [construct(b=y)] are accepted; [construct(x, a=y)], [construct(c=y)]
    and [construct(x, y, z)] are rejected. *)
Example parsed_calls (x y z : addr) :
  PyArg_ParseTupleAndKeywords [x] ∅ kwlist = Ok [Some x; None]
  /\ PyArg_ParseTupleAndKeywords [x] (<["b" := y]> ∅) kwlist = Ok [Some x; Some y]
  /\ PyArg_ParseTupleAndKeywords [] (<["b" := y]> ∅) kwlist = Ok [None; Some y]
  /\ PyArg_ParseTupleAndKeywords [x] (<["a" := y]> ∅) kwlist = Raise TypeError
  /\ PyArg_ParseTupleAndKeywords [] (<["c" := y]> ∅) kwlist = Raise TypeError
  /\ PyArg_ParseTupleAndKeywords [x; y; z] ∅ kwlist = Raise TypeError.
Proof. repeat split; reflexivity. Qed.

Ltac by_evaluation :=
  unfold positive_counts;
  apply (bool_decide_unpack _); vm_compute; exact I.

(** C6. When construction fails, whatever the step that failed (the
    call was rejected, the default for [b] could not be created after [a]
    was acquired, the envelope could not be allocated), every reference
    acquired so far has been released before the error is returned: the
    heap, and so every reference count in it, is what it was before the
    call. *)
Theorem construction_failure_releases type args kwds h e h' :
  positive_counts (heap h) ->
  live_arguments (heap h) args kwds ->
  quadraticelement2_new type args kwds h = (Raise e, h') ->
  heap h' = heap h.
Proof. apply new_failure_heap. Qed.

(** [construct(1)] when the default for [b] cannot be created. *)
Lemma construction_failure_releases_witness :
  heap (snd (quadraticelement2_new 3%positive [4%positive] ∅ (with_ints [false])))
  = heap (with_ints [false]).
Proof.
  apply (construction_failure_releases 3%positive [4%positive] ∅
           (with_ints [false]) MemoryError).
  - by_evaluation.
  - split; [by_evaluation | apply map_Forall_empty].
  - vm_compute. reflexivity.
Defined.

(** C4 as stated fails: [None] has no integer conversion, and
    [construct(None)] returns an element whose field [a] is [None]
    itself. *)
Lemma construct_accepts_None :
  convertible_to_int (heap (loaded [])) 2%positive = false
  /\ fst (quadraticelement2_new 3%positive [2%positive] ∅ (loaded [])) = Ok 5%positive
  /\ as_element (heap (snd (quadraticelement2_new 3%positive [2%positive] ∅ (loaded []))))
       5%positive
     = Some {| qe_a := Some 2%positive; qe_b := Some 4%positive |}.
Proof. vm_compute. repeat split; reflexivity. Qed.

(** C4, amended.  Construction converts nothing: it fails only with the
    [TypeError] of a call that argument parsing rejects or with the
    [MemoryError] of a host allocation that fails, and then it returns no
    object and leaves the heap as it was; a call that parsing accepts
    succeeds whenever the host can allocate, whatever objects the
    arguments are, and stores the arguments themselves. *)
Theorem construction_fails_on_call_or_memory_only type args kwds h :
  positive_counts (heap h) ->
  live_arguments (heap h) args kwds ->
  (forall e h',
     quadraticelement2_new type args kwds h = (Raise e, h') ->
     ((e = TypeError /\
       PyArg_ParseTupleAndKeywords args kwds kwlist = Raise TypeError)
      \/ (e = MemoryError /\ ~ no_failure_within 3 h))
     /\ heap h' = heap h)
  /\ (forall a b,
        PyArg_ParseTupleAndKeywords args kwds kwlist = Ok [a; b] ->
        no_failure_within 3 h ->
        exists qe h' pa pb,
          quadraticelement2_new type args kwds h = (Ok qe, h')
          /\ as_element (heap h') qe = Some {| qe_a := Some pa; qe_b := Some pb |}
          /\ (forall x, a = Some x -> pa = x)
          /\ (forall y, b = Some y -> pb = y)).
Proof.
  intros Hpos Hlive. split.
  - intros e h' H. split; [by eapply new_failure_cause|by eapply new_failure_heap].
  - intros a b Hparse H3.
    destruct (new_succeeds type _ _ _ _ _ Hparse H3) as (qe & h' & Hnew).
    destruct (new_Ok_inv _ _ _ _ _ _ Hnew)
      as (a' & b' & pa & pb & Hparse' & _ & Hqe & _ & Ha & Hb & _).
    rewrite Hparse in Hparse'. injection Hparse' as <- <-.
    exists qe, h', pa, pb. split; [done|]. split; [|done].
    unfold as_element. by rewrite Hqe.
Qed.

Lemma construction_fails_on_call_or_memory_only_witness :
  exists qe h' pa pb,
    quadraticelement2_new 3%positive [2%positive] ∅ (loaded []) = (Ok qe, h')
    /\ as_element (heap h') qe = Some {| qe_a := Some pa; qe_b := Some pb |}
    /\ (forall x, Some 2%positive = Some x -> pa = x)
    /\ (forall y, @None addr = Some y -> pb = y).
Proof.
  refine (proj2 (construction_fails_on_call_or_memory_only 3%positive [2%positive] ∅
                   (loaded []) _ _) (Some 2%positive) None _ _).
  - by_evaluation.
  - split; [by_evaluation | apply map_Forall_empty].
  - reflexivity.
  - unfold no_failure_within. simpl. constructor.
Defined.





(** ** Operators *)

(** The slots a type made from [quadraticelement2_spec] answers with:
    its own table has no entry for them, and [object] supplies only the
    comparison. *)
Lemma element_type_slots (hp : heapT) tp :
  element_type hp tp ->
  type_slot hp (HeapType tp) Py_nb_add = None
  /\ type_slot hp (HeapType tp) Py_nb_multiply = None
  /\ type_slot hp (HeapType tp) Py_sq_concat = None
  /\ type_slot hp (HeapType tp) Py_sq_repeat = None
  /\ type_slot hp (HeapType tp) Py_tp_richcompare = Some (Fn object_richcompare_fn)
  /\ type_members hp (HeapType tp) = quadraticelement2_members.
Proof.
  unfold element_type, type_slot, type_members. intros ->. by vm_compute.
Qed.

Lemma binary_op1_elements (h : host) x y slot :
  element (heap h) x -> element (heap h) y ->
  (forall tp, element_type (heap h) tp -> type_slot (heap h) (HeapType tp) slot = None) ->
  binary_op1 x y slot h = (NotImplemented, h).
Proof.
  intros (tx & Hx & Htx & _) (ty & Hy & Hty & _) Hslot.
  unfold binary_op1. rewrite Hx, Hy, !(Hslot _ Htx), !(Hslot _ Hty).
  by repeat case_decide.
Qed.

(** C1 as stated fails: [construct(1, 2) + construct(3, 4)] returns no
    element; the host raises [TypeError] and leaves the heap as it is. *)
Lemma add_of_two_elements_raises :
  element_value (heap two_elements) 8%positive = Some (1, 2)
  /\ element_value (heap two_elements) 9%positive = Some (3, 4)
  /\ add 8%positive 9%positive two_elements = (Returned (Raise TypeError), two_elements).
Proof. vm_compute. repeat split; reflexivity. Qed.

(** C1, amended.  Binary addition is not defined on the elements: the
    slot table of the type has no [nb_add] (and no [sq_concat]), so for
    every pair of elements [x + y] raises [TypeError] and creates
    nothing. *)
Theorem add_is_unsupported (h : host) x y :
  element (heap h) x -> element (heap h) y ->
  add x y h = (Returned (Raise TypeError), h).
Proof.
  intros Hx Hy. unfold add, PyNumber_Add.
  rewrite (binary_op1_elements h x y Py_nb_add Hx Hy)
    by (intros tp Htp; apply (element_type_slots _ _ Htp)).
  destruct Hx as (tx & -> & Htx & _). simpl.
  destruct (element_type_slots _ _ Htx) as (_ & _ & -> & _). done.
Qed.

Lemma two_elements_are_elements :
  element (heap two_elements) 8%positive /\ element (heap two_elements) 9%positive.
Proof.
  split; exists 3%positive; vm_compute; (split; [reflexivity|split; [reflexivity|by eexists]]).
Defined.

Lemma add_is_unsupported_witness :
  add 8%positive 9%positive two_elements = (Returned (Raise TypeError), two_elements).
Proof.
  apply (add_is_unsupported two_elements 8%positive 9%positive);
    apply two_elements_are_elements.
Defined.

(** C2 as stated fails: [construct(1, 2) * construct(3, 4)] returns no
    element; the host raises [TypeError]. *)
Lemma multiply_of_two_elements_raises :
  element_value (heap two_elements) 8%positive = Some (1, 2)
  /\ element_value (heap two_elements) 9%positive = Some (3, 4)
  /\ multiply 8%positive 9%positive two_elements
     = (Returned (Raise TypeError), two_elements).
Proof. vm_compute. repeat split; reflexivity. Qed.

(** C2, amended.  Binary multiplication is not defined on the elements:
    the slot table of the type has no [nb_multiply] (and no [sq_repeat]),
    so for every pair of elements [x * y] raises [TypeError] and creates
    nothing. *)
Theorem multiply_is_unsupported (h : host) x y :
  element (heap h) x -> element (heap h) y ->
  multiply x y h = (Returned (Raise TypeError), h).
Proof.
  intros Hx Hy. unfold multiply, PyNumber_Multiply.
  rewrite (binary_op1_elements h x y Py_nb_multiply Hx Hy)
    by (intros tp Htp; apply (element_type_slots _ _ Htp)).
  destruct Hx as (tx & -> & Htx & _). destruct Hy as (ty & -> & Hty & _). simpl.
  destruct (element_type_slots _ _ Htx) as (_ & _ & _ & -> & _).
  destruct (element_type_slots _ _ Hty) as (_ & _ & _ & -> & _). done.
Qed.

Lemma multiply_is_unsupported_witness :
  multiply 8%positive 9%positive two_elements
  = (Returned (Raise TypeError), two_elements).
Proof.
  apply (multiply_is_unsupported two_elements 8%positive 9%positive);
    apply two_elements_are_elements.
Defined.

(** The dispatch itself adds and multiplies where a type fills the
    slots: on the [int]s 1 and 2 it creates the [int]s 3 and 2. *)
Example int_operators_are_dispatched :
  fst (add 4%positive 5%positive two_elements) = Returned (Ok 10%positive)
  /\ long_value (heap (snd (add 4%positive 5%positive two_elements))) 10%positive = Some 3
  /\ long_value (heap (snd (multiply 4%positive 5%positive two_elements))) 10%positive
     = Some 2.
Proof. vm_compute. repeat split; reflexivity. Qed.

(** C3 as stated fails: two elements built from the same two integers
    have equal fields and do not compare equal. *)
Lemma equal_fields_compare_unequal :
  element_value (heap twins) 8%positive = Some (1, 2)
  /\ element_value (heap twins) 9%positive = Some (1, 2)
  /\ equals 8%positive 9%positive (heap twins) = Ok false.
Proof. vm_compute. repeat split; reflexivity. Qed.

(** C3, amended.  The type fills no [tp_richcompare], so equality of
    elements is the comparison inherited from [object]: for every pair of
    elements [x == y] is true if and only if [x] and [y] are the same
    object. *)
Theorem equals_is_identity (hp : heapT) x y :
  element hp x -> element hp y ->
  equals x y hp = Ok (bool_decide (x = y)).
Proof.
  intros (tx & Hx & Htx & _) (ty & Hy & Hty & _).
  unfold equals, PyObject_RichCompare_EQ. rewrite Hx, Hy.
  destruct (element_type_slots _ _ Htx) as (_ & _ & _ & _ & -> & _).
  destruct (element_type_slots _ _ Hty) as (_ & _ & _ & _ & -> & _).
  assert (PyType_IsSubtype (HeapType ty) (HeapType tx)
          = bool_decide (HeapType tx = HeapType ty)) as ->.
  { unfold PyType_IsSubtype. rewrite orb_false_r.
    apply bool_decide_ext. split; congruence. }
  rewrite andb_negb_l. simpl.
  destruct (decide (x = y)) as [->|Hne].
  - by rewrite bool_decide_true.
  - rewrite decide_False by congruence. by rewrite bool_decide_false.
Qed.

Lemma twins_are_elements :
  element (heap twins) 8%positive /\ element (heap twins) 9%positive.
Proof.
  split; exists 3%positive; vm_compute; (split; [reflexivity|split; [reflexivity|by eexists]]).
Defined.

Lemma equals_is_identity_witness :
  equals 8%positive 9%positive (heap twins) = Ok (bool_decide (8 = 9)%positive).
Proof.
  apply (equals_is_identity (heap twins) 8%positive 9%positive);
    apply twins_are_elements.
Defined.

(** ** Attribute access *)

Lemma element_type_is_Some (hp : heapT) tp :
  element_type hp tp -> is_Some (hp !! tp).
Proof.
  unfold element_type, type_slots. destruct (hp !! tp); [by eexists|done].
Qed.

Lemma element_type_ext (hp hp' : heapT) tp :
  ob_body <$> hp' !! tp = ob_body <$> hp !! tp ->
  element_type hp tp -> element_type hp' tp.
Proof. unfold element_type, type_slots. by intros ->. Qed.

(** What the constructor returns is an element with both fields bound. *)
Lemma new_returns_element type args kwds h x h' :
  element_type (heap h) type ->
  quadraticelement2_new type args kwds h = (Ok x, h') ->
  element (heap h') x
  /\ exists pa pb, as_element (heap h') x = Some {| qe_a := Some pa; qe_b := Some pb |}.
Proof.
  intros Htype Hnew.
  destruct (new_Ok_inv _ _ _ _ _ _ Hnew)
    as (a & b & pa & pb & _ & _ & Hx & Hold & _).
  assert (Hqe : as_element (heap h') x = Some {| qe_a := Some pa; qe_b := Some pb |}).
  { unfold as_element. by rewrite Hx. }
  split; [|by eauto].
  exists type. split; [unfold Py_TYPE; by rewrite Hx|]. split; [|by rewrite Hqe].
  eapply element_type_ext; [|done]. by apply Hold, element_type_is_Some.
Qed.

(** C7. The fields are exposed read-only.  On every element that the
    constructor returns, reading [a] and [b] yields the stored objects
    (as new references); and on every element, then and later, every
    attempt to set or delete an attribute, [a] and [b] included, fails
    and changes nothing. *)
Theorem fields_are_read_only type args kwds h x h' :
  element_type (heap h) type ->
  quadraticelement2_new type args kwds h = (Ok x, h') ->
  (exists pa pb,
     as_element (heap h') x = Some {| qe_a := Some pa; qe_b := Some pb |}
     /\ member_getattr x "a" (heap h') = Some (Ok pa, Py_INCREF pa (heap h'))
     /\ member_getattr x "b" (heap h') = Some (Ok pb, Py_INCREF pb (heap h')))
  /\ (forall hp nm v,
        element hp x ->
        exists e, PyObject_GenericSetAttr x nm v hp = (Raise e, hp)).
Proof.
  intros Htype Hnew.
  destruct (new_returns_element _ _ _ _ _ _ Htype Hnew)
    as [(tp & Ht & Htp & _) (pa & pb & Hqe)].
  split.
  - exists pa, pb. split; [done|].
    unfold member_getattr. rewrite Ht.
    destruct (element_type_slots _ _ Htp) as (_ & _ & _ & _ & _ & ->).
    simpl. unfold PyMember_GetOne. rewrite Hqe. done.
  - intros hp nm v (tp' & Ht' & Htp' & _).
    unfold PyObject_GenericSetAttr. rewrite Ht'.
    destruct (element_type_slots _ _ Htp') as (_ & _ & _ & _ & _ & ->).
    unfold find_member, quadraticelement2_members. cbn -[String.eqb].
    destruct (String.eqb "a" nm); [by eexists|].
    destruct (String.eqb "b" nm); [by eexists|].
    destruct (String.eqb nm "__class__"); by eexists.
Qed.

(** [construct(1, 2)], and [x.a = 2] on the result. *)
Lemma fields_are_read_only_witness :
  (exists pa pb,
     as_element (heap two_elements) 9%positive
       = Some {| qe_a := Some pa; qe_b := Some pb |}
     /\ member_getattr 9%positive "a" (heap two_elements)
        = Some (Ok pa, Py_INCREF pa (heap two_elements))
     /\ member_getattr 9%positive "b" (heap two_elements)
        = Some (Ok pb, Py_INCREF pb (heap two_elements)))
  /\ exists e, PyObject_GenericSetAttr 9%positive "a" (Some 5%positive) (heap two_elements)
               = (Raise e, heap two_elements).
Proof.
  pose proof (fields_are_read_only 3%positive [6; 7]%positive ∅
    (snd (quadraticelement2_new 3%positive [4; 5]%positive ∅ (with_ints [])))
    9%positive two_elements) as H.
  destruct H as [Hget Hset].
  - vm_compute. reflexivity.
  - vm_compute. reflexivity.
  - split; [exact Hget|].
    apply (Hset (heap two_elements) "a" (Some 5%positive)).
    apply two_elements_are_elements.
Defined.

(** ** Teardown *)

Lemma shrinks_refl (hp : heapT) : shrinks hp hp.
Proof. intros i. by right. Qed.

Lemma shrinks_trans (hp1 hp2 hp3 : heapT) :
  shrinks hp1 hp2 -> shrinks hp2 hp3 -> shrinks hp1 hp3.
Proof.
  intros H12 H23 i. destruct (H23 i) as [?|E23]; [by left|].
  destruct (H12 i) as [E|E12]; [|right; congruence].
  left. rewrite E in E23. by destruct (hp3 !! i).
Qed.

Lemma shrinks_set_refcnt (hp : heapT) p o n :
  hp !! p = Some o -> shrinks hp (<[p := set_refcnt n o]> hp).
Proof.
  intros Hp i. right. destruct (decide (i = p)) as [->|].
  - by rewrite lookup_insert_eq, Hp.
  - by rewrite lookup_insert_ne.
Qed.

Lemma shrinks_delete (hp : heapT) p : shrinks hp (delete p hp).
Proof.
  intros i. destruct (decide (i = p)) as [->|].
  - left. apply lookup_delete_eq.
  - right. by rewrite lookup_delete_ne.
Qed.

Lemma Py_XDECREF_with_shrinks decref op (hp : heapT) :
  (forall p hp', shrinks hp' (decref p hp')) ->
  shrinks hp (Py_XDECREF_with decref op hp).
Proof. intros H. destruct op; simpl; [apply H|apply shrinks_refl]. Qed.

Lemma quadraticelement2_dealloc_with_shrinks decref op (hp : heapT) :
  (forall p hp', shrinks hp' (decref p hp')) ->
  shrinks hp (quadraticelement2_dealloc_with decref op hp).
Proof.
  intros H. unfold quadraticelement2_dealloc_with.
  destruct (hp !! op) as [o|]; [|apply shrinks_refl].
  destruct (ob_body o); try apply shrinks_refl.
  eapply shrinks_trans; [|by apply Py_XDECREF_with_shrinks].
  eapply shrinks_trans; [|apply shrinks_delete].
  eapply shrinks_trans; by apply Py_XDECREF_with_shrinks.
Qed.

(** Dropping a reference changes counts and frees objects; it never
    rewrites the body of an object that stays. *)
Lemma Py_DECREF_fuel_shrinks fuel : forall p (hp : heapT),
  shrinks hp (Py_DECREF_fuel fuel p hp).
Proof.
  induction fuel as [|fuel IH]; intros p hp; simpl.
  - destruct (hp !! p) as [o|] eqn:Hp; [|apply shrinks_refl].
    destruct (ob_refcnt o - 1 =? 0); by apply shrinks_set_refcnt.
  - destruct (hp !! p) as [o|] eqn:Hp; [|apply shrinks_refl].
    pose proof (shrinks_set_refcnt hp p o (ob_refcnt o - 1) Hp) as Hset.
    destruct (ob_refcnt o - 1 =? 0); [|done].
    assert (Hdel : shrinks hp (delete p (<[p := set_refcnt (ob_refcnt o - 1) o]> hp))).
    { eapply shrinks_trans; [done|apply shrinks_delete]. }
    destruct (type_slot _ (ob_type o) Py_tp_dealloc) as [[[]|]|]; try exact Hdel.
    eapply shrinks_trans; [exact Hset|]. by apply quadraticelement2_dealloc_with_shrinks.
Qed.

Lemma Py_DECREF_shrinks p (hp : heapT) : shrinks hp (Py_DECREF p hp).
Proof. apply Py_DECREF_fuel_shrinks. Qed.

Lemma no_gain_refl (hp : heapT) : no_gain hp hp.
Proof. by intros i. Qed.

Lemma no_gain_trans (hp1 hp2 hp3 : heapT) :
  no_gain hp1 hp2 -> no_gain hp2 hp3 -> no_gain hp1 hp3.
Proof. intros H12 H23 i Hi. by apply H12, H23. Qed.

Lemma no_gain_decrement (hp : heapT) p o :
  hp !! p = Some o -> no_gain hp (<[p := set_refcnt (ob_refcnt o - 1) o]> hp).
Proof.
  intros Hp i (o' & Hi & Hpos). destruct (decide (i = p)) as [->|Hne].
  - rewrite lookup_insert_eq in Hi. injection Hi as <-. simpl in Hpos.
    exists o. split; [done|lia].
  - rewrite lookup_insert_ne in Hi by done. by exists o'.
Qed.

Lemma no_gain_delete (hp : heapT) p : no_gain hp (delete p hp).
Proof.
  intros i (o' & Hi & Hpos). destruct (decide (i = p)) as [->|Hne].
  - by rewrite lookup_delete_eq in Hi.
  - rewrite lookup_delete_ne in Hi by done. by exists o'.
Qed.

Lemma quadraticelement2_dealloc_with_no_gain decref op (hp : heapT) :
  (forall p hp', no_gain hp' (decref p hp')) ->
  no_gain hp (quadraticelement2_dealloc_with decref op hp).
Proof.
  intros H. unfold quadraticelement2_dealloc_with.
  assert (HX : forall q hp', no_gain hp' (Py_XDECREF_with decref q hp')).
  { intros [q|] hp'; simpl; [apply H|apply no_gain_refl]. }
  destruct (hp !! op) as [o|]; [|apply no_gain_refl].
  destruct (ob_body o); try apply no_gain_refl.
  eapply no_gain_trans; [|apply HX].
  eapply no_gain_trans; [|apply no_gain_delete].
  eapply no_gain_trans; apply HX.
Qed.

Lemma Py_DECREF_fuel_no_gain fuel : forall p (hp : heapT),
  no_gain hp (Py_DECREF_fuel fuel p hp).
Proof.
  induction fuel as [|fuel IH]; intros p hp; simpl.
  - destruct (hp !! p) as [o|] eqn:Hp; [|apply no_gain_refl].
    destruct (ob_refcnt o - 1 =? 0); by apply no_gain_decrement.
  - destruct (hp !! p) as [o|] eqn:Hp; [|apply no_gain_refl].
    pose proof (no_gain_decrement hp p o Hp) as Hset.
    destruct (ob_refcnt o - 1 =? 0); [|done].
    assert (Hdel : no_gain hp (delete p (<[p := set_refcnt (ob_refcnt o - 1) o]> hp))).
    { eapply no_gain_trans; [done|apply no_gain_delete]. }
    destruct (type_slot _ (ob_type o) Py_tp_dealloc) as [[[]|]|]; try exact Hdel.
    eapply no_gain_trans; [exact Hset|]. by apply quadraticelement2_dealloc_with_no_gain.
Qed.

(** Two amounts of fuel that both cover the referenced objects give the
    same heap: a nested deallocation is that of a referenced object other
    than those being deallocated around it. *)
Lemma size_elem_of_pos (X : gset addr) p : p ∈ X -> (0 < size X)%nat.
Proof.
  intros Hin. destruct (size X) eqn:E; [|lia].
  apply size_empty_inv in E. set_solver.
Qed.

Lemma Py_DECREF_fuel_irrelevant fuel1 :
  forall fuel2 (X : gset addr) p (hp : heapT),
    (forall i, referenced hp i -> i ∈ X) ->
    (size X <= fuel1)%nat -> (size X <= fuel2)%nat ->
    Py_DECREF_fuel fuel1 p hp = Py_DECREF_fuel fuel2 p hp.
Proof.
  induction fuel1 as [|f1 IH]; intros fuel2 X p hp HX H1 H2.
  - destruct fuel2 as [|f2]; [done|]. simpl.
    destruct (hp !! p) as [o|] eqn:Hp; [|done].
    destruct (Z.eqb_spec (ob_refcnt o - 1) 0) as [E|]; [|done].
    assert (Hin : p ∈ X) by (apply HX; exists o; split; [done|lia]).
    apply size_elem_of_pos in Hin. lia.
  - simpl. destruct (hp !! p) as [o|] eqn:Hp; [|by destruct fuel2; simpl; rewrite Hp].
    destruct (Z.eqb_spec (ob_refcnt o - 1) 0) as [E|Hne].
    2:{ destruct fuel2; simpl; rewrite Hp; by destruct (Z.eqb_spec (ob_refcnt o - 1) 0). }
    assert (Hp_in : p ∈ X) by (apply HX; exists o; split; [done|lia]).
    pose proof (size_elem_of_pos _ _ Hp_in) as Hpos.
    destruct fuel2 as [|f2]; [lia|]. simpl. rewrite Hp.
    destruct (Z.eqb_spec (ob_refcnt o - 1) 0) as [_|]; [|done].
    set (hp' := <[p := set_refcnt (ob_refcnt o - 1) o]> hp).
    assert (HX' : forall i, referenced hp' i -> i ∈ X ∖ {[p]}).
    { intros i (o' & Hi & Hpos'). destruct (decide (i = p)) as [->|Hne].
      - unfold hp' in Hi. rewrite lookup_insert_eq in Hi. injection Hi as <-.
        simpl in Hpos'. lia.
      - unfold hp' in Hi. rewrite lookup_insert_ne in Hi by done.
        apply elem_of_difference. split; [apply HX; by exists o'|set_solver]. }
    assert (Hsize : (size (X ∖ {[p]}) = size X - 1)%nat).
    { rewrite size_difference by (by apply singleton_subseteq_l).
      by rewrite size_singleton. }
    assert (Hd : forall q (hq : heapT), no_gain hp' hq ->
              Py_DECREF_fuel f1 q hq = Py_DECREF_fuel f2 q hq).
    { intros q hq Hq. apply (IH f2 (X ∖ {[p]})); [|lia|lia].
      intros i Hi. apply HX'. by apply Hq. }
    assert (HdX : forall q (hq : heapT), no_gain hp' hq ->
              Py_XDECREF_with (Py_DECREF_fuel f1) q hq
              = Py_XDECREF_with (Py_DECREF_fuel f2) q hq
              /\ no_gain hp' (Py_XDECREF_with (Py_DECREF_fuel f2) q hq)).
    { intros [q|] hq Hq; simpl; [|done]. split; [by apply Hd|].
      eapply no_gain_trans; [done|apply Py_DECREF_fuel_no_gain]. }
    destruct (type_slot hp' (ob_type o) Py_tp_dealloc) as [[[]|]|]; try done.
    unfold quadraticelement2_dealloc_with.
    destruct (hp' !! p) as [o'|]; [|done]. destruct (ob_body o') as [| | | | |qe]; try done.
    destruct (HdX (qe_a qe) hp' (no_gain_refl _)) as [-> Ha].
    destruct (HdX (qe_b qe) _ Ha) as [-> Hb].
    apply HdX. eapply no_gain_trans; [exact Hb|apply no_gain_delete].
Qed.

(** The fuel [Py_DECREF] runs on is enough: more fuel gives the same heap. *)
Lemma Py_DECREF_fuel_enough fuel p (hp : heapT) :
  (size hp < fuel)%nat -> Py_DECREF_fuel fuel p hp = Py_DECREF p hp.
Proof.
  intros Hf. unfold Py_DECREF. apply (Py_DECREF_fuel_irrelevant _ _ (dom hp)).
  - intros i (o & Hi & _). by apply elem_of_dom.
  - rewrite size_dom. lia.
  - rewrite size_dom. lia.
Qed.

(** Dropping the last reference to [construct(3, 4)] runs
    [quadraticelement2_dealloc]: the element is gone, and its two integers
    and its type have one reference less. *)
Example last_reference_tears_down :
  Py_DECREF 9%positive (heap two_elements) !! 9%positive = None
  /\ ob_refcnt <$> heap two_elements !! 6%positive = Some 2
  /\ ob_refcnt <$> Py_DECREF 9%positive (heap two_elements) !! 6%positive = Some 1
  /\ ob_refcnt <$> Py_DECREF 9%positive (heap two_elements) !! 7%positive = Some 1
  /\ ob_refcnt <$> heap two_elements !! 3%positive = Some 4
  /\ ob_refcnt <$> Py_DECREF 9%positive (heap two_elements) !! 3%positive = Some 3.
Proof. vm_compute. repeat split; reflexivity. Qed.

Lemma as_element_shrinks (hp hp' : heapT) x qe :
  shrinks hp hp' -> as_element hp' x = Some qe -> as_element hp x = Some qe.
Proof.
  intros H. unfold as_element. destruct (H x) as [E|E]; rewrite E; done.
Qed.

Lemma as_element_store_field (hp : heapT) x f v qe qe' :
  as_element hp x = Some qe ->
  as_element (store_field x f v hp) x = Some qe' -> qe' = set_field f v qe.
Proof.
  unfold as_element, store_field. rewrite lookup_alter_eq.
  destruct (hp !! x) as [o|]; simpl; [|done].
  destruct (ob_body o) eqn:Hb; simpl; try done; rewrite ?Hb; try done.
  by intros [= ->] [= <-].
Qed.

(** What is left of the element after [Py_CLEAR(qe->f)]: the field [f]
    is [NULL], the other field is as it was. *)
Lemma Py_CLEAR_result x f (hp : heapT) qe' :
  as_element (Py_CLEAR x f hp) x = Some qe' ->
  exists qe, as_element hp x = Some qe /\ qe' = set_field f None qe.
Proof.
  unfold Py_CLEAR. destruct (as_element hp x) as [qe|] eqn:Hx; [|congruence].
  destruct (get_field f qe) as [tmp|] eqn:Hf.
  - intros H. apply (as_element_shrinks _ _ _ _ (Py_DECREF_shrinks _ _)) in H.
    exists qe. split; [done|]. by eapply as_element_store_field.
  - intros H. rewrite Hx in H. injection H as <-.
    exists qe. split; [done|]. destruct f, qe; simpl in *; by subst.
Qed.

(** Clearing a field that is already [NULL] does nothing. *)
Lemma Py_CLEAR_noop x f (hp : heapT) :
  (forall qe, as_element hp x = Some qe -> get_field f qe = None) ->
  Py_CLEAR x f hp = hp.
Proof.
  intros H. unfold Py_CLEAR. destruct (as_element hp x) as [qe|]; [|done].
  by rewrite (H qe eq_refl).
Qed.

Lemma clear_leaves_no_field x (hp : heapT) qe :
  as_element (snd (quadraticelement2_clear x hp)) x = Some qe ->
  qe_a qe = None /\ qe_b qe = None.
Proof.
  unfold quadraticelement2_clear. simpl. intros H.
  apply Py_CLEAR_result in H as (qe1 & H1 & ->).
  apply Py_CLEAR_result in H1 as (qe0 & _ & ->). done.
Qed.

Lemma clear_twice x (hp : heapT) :
  quadraticelement2_clear x (snd (quadraticelement2_clear x hp))
  = quadraticelement2_clear x hp.
Proof.
  pose proof (clear_leaves_no_field x hp) as H.
  unfold quadraticelement2_clear at 1. cbv zeta.
  rewrite (Py_CLEAR_noop x offsetof_a) by (intros qe Hqe; by apply H).
  rewrite (Py_CLEAR_noop x offsetof_b) by (intros qe Hqe; by apply H).
  done.
Qed.

Lemma traverse_visits_owned {S : Type} (hp : heapT) x o qe
    (visit : addr -> S -> Z * S) arg :
  hp !! x = Some o -> ob_body o = QE2 qe ->
  quadraticelement2_traverse hp x visit arg
  = visit_each visit (owned_references o qe) arg.
Proof.
  intros Hx Hb. unfold quadraticelement2_traverse, owned_references.
  rewrite Hx, Hb.
  destruct (type_ptr (ob_type o)) as [t|], (qe_a qe) as [pa|], (qe_b qe) as [pb|];
    simpl; unfold Py_VISIT;
    repeat (match goal with
            | |- context [visit ?p ?s] =>
                destruct (visit p s) as [vret s']; try destruct (vret =? 0)
            end); done.
Qed.

Lemma visit_each_zero {S : Type} (visit : addr -> S -> Z * S) ps arg :
  (forall p s, fst (visit p s) = 0) -> fst (visit_each visit ps arg) = 0.
Proof.
  intros Hz. revert arg. induction ps as [|p ps IH]; intros arg; simpl; [done|].
  specialize (Hz p arg). destruct (visit p arg) as [vret s']. simpl in Hz. subst.
  simpl. apply IH.
Qed.

Lemma visit_each_record ps (seen : list addr) :
  visit_each (fun p (s : list addr) => (0, (s ++ [p])%list)) ps seen
  = (0, (seen ++ ps)%list).
Proof.
  revert seen. induction ps as [|p ps IH]; intros seen; simpl.
  - by rewrite app_nil_r.
  - rewrite IH. by rewrite <- List.app_assoc.
Qed.

(** C8 as stated fails: a visitor that answers [-1] on the first
    pointer makes the traversal return [-1] at once, with only the type
    reported; neither [a] (address 4) nor [b] (address 5) is. *)
Lemma traverse_returns_what_the_visitor_returns :
  as_element (heap twins) 8%positive
    = Some {| qe_a := Some 4%positive; qe_b := Some 5%positive |}
  /\ quadraticelement2_traverse (heap twins) 8%positive
       (fun p (s : list addr) => (-1, (s ++ [p])%list)) []
     = (-1, [3%positive]).
Proof. vm_compute. split; reflexivity. Qed.

(** C8, amended.  The traversal calls the visitor on every reference
    the element owns (its type, [a] and [b], those that are not [NULL]),
    in this order, as long as the visitor returns zero; it returns the
    first non-zero answer of the visitor at once and zero otherwise, so
    with a visitor that always returns zero it returns zero and has
    reported every owned reference.  [quadraticelement2_clear] returns
    zero on every input; running it again changes nothing more, and on a
    field that is already [NULL] it does nothing. *)
Theorem traverse_and_clear (hp : heapT) x o qe :
  hp !! x = Some o ->
  ob_body o = QE2 qe ->
  (forall (S : Type) (visit : addr -> S -> Z * S) arg,
     quadraticelement2_traverse hp x visit arg
     = visit_each visit (owned_references o qe) arg)
  /\ (forall (S : Type) (visit : addr -> S -> Z * S) arg,
        (forall p s, fst (visit p s) = 0) ->
        fst (quadraticelement2_traverse hp x visit arg) = 0)
  /\ quadraticelement2_traverse hp x
        (fun p (s : list addr) => (0, (s ++ [p])%list)) []
      = (0, owned_references o qe)
  /\ (forall p, qe_a qe = Some p \/ qe_b qe = Some p -> In p (owned_references o qe))
  /\ (forall y (hp' : heapT), fst (quadraticelement2_clear y hp') = 0)
  /\ (forall y (hp' : heapT),
        quadraticelement2_clear y (snd (quadraticelement2_clear y hp'))
        = quadraticelement2_clear y hp')
  /\ (forall f, get_field f qe = None -> Py_CLEAR x f hp = hp).
Proof.
  intros Hx Hb. repeat split.
  - intros S visit arg. by apply traverse_visits_owned.
  - intros S visit arg Hz. rewrite (traverse_visits_owned hp x o qe) by done.
    by apply visit_each_zero.
  - rewrite (traverse_visits_owned hp x o qe) by done. apply visit_each_record.
  - unfold owned_references. intros p [Hp|Hp]; rewrite Hp;
      destruct (type_ptr (ob_type o)), (qe_a qe), (qe_b qe); simpl; auto; done.
  - intros y hp'. apply clear_twice.
  - intros f Hf. apply Py_CLEAR_noop. intros qe'. unfold as_element.
    rewrite Hx. simpl. rewrite Hb. by intros [= <-].
Qed.

Lemma traverse_and_clear_witness :
  quadraticelement2_traverse (heap twins) 8%positive
    (fun p (s : list addr) => (0, (s ++ [p])%list)) []
  = (0, [3; 4; 5]%positive).
Proof.
  refine (proj1 (proj2 (proj2
    (traverse_and_clear (heap twins) 8%positive
       {| ob_refcnt := 1; ob_type := HeapType 3%positive;
          ob_body := QE2 {| qe_a := Some 4%positive; qe_b := Some 5%positive |} |}
       {| qe_a := Some 4%positive; qe_b := Some 5%positive |} _ _)))).
  - vm_compute. reflexivity.
  - reflexivity.
Defined.

(** ** The module *)

Lemma as_module_ext (hp hp' : heapT) i :
  ob_body <$> hp' !! i = ob_body <$> hp !! i -> as_module hp' i = as_module hp i.
Proof. unfold as_module. by intros ->. Qed.

Lemma as_module_set_module (hp : heapT) module m m' :
  as_module hp module = Some m -> as_module (set_module module m' hp) module = Some m'.
Proof.
  unfold as_module, set_module. rewrite lookup_alter_eq.
  destruct (hp !! module) as [o|]; simpl; [|done].
  destruct (ob_body o) eqn:Hb; simpl; rewrite ?Hb; done.
Qed.

Lemma set_module_other (hp : heapT) module m' i :
  i ≠ module -> set_module module m' hp !! i = hp !! i.
Proof. intros H. unfold set_module. by rewrite lookup_alter_ne. Qed.

Lemma set_module_dom (hp : heapT) module m' : dom (set_module module m' hp) = dom hp.
Proof. unfold set_module. by rewrite dom_alter_L. Qed.

Lemma type_name_of_spec module :
  tp_name (type_of_spec module quadraticelement2_spec)
    = "radicalfield._quadraticelement2.QuadraticElement2"
  /\ ht_name (type_of_spec module quadraticelement2_spec) = "QuadraticElement2"
  /\ tp_module (type_of_spec module quadraticelement2_spec)
     = Some "radicalfield._quadraticelement2"
  /\ _PyType_Name (tp_name (type_of_spec module quadraticelement2_spec))
     = "QuadraticElement2".
Proof. vm_compute. repeat split; reflexivity. Qed.

(** C10. Executing the module on a module object that does not yet
    bind the name: when the host can create the type and insert it into
    the module, [module_exec] returns 0, the module gains exactly one
    object, the type made from [quadraticelement2_spec], whose [tp_name]
    is [radicalfield._quadraticelement2.QuadraticElement2], bound in the
    module under the one new name [QuadraticElement2] and kept in the
    module state; when the creation of the type fails, and when its
    registration fails, [module_exec] returns -1. *)
Theorem module_exec_registers_the_type module h m :
  as_module (heap h) module = Some m ->
  md_dict m !! "QuadraticElement2" = None ->
  (no_failure_within 2 h ->
     fst (module_exec module h) = 0
     /\ as_module (heap (snd (module_exec module h))) module
        = Some {| md_dict := <["QuadraticElement2" := fresh (dom (heap h))]> (md_dict m);
                  md_state := {| QuadraticElement2_Type := Some (fresh (dom (heap h))) |} |}
     /\ as_type (heap (snd (module_exec module h))) (fresh (dom (heap h)))
        = Some (type_of_spec module quadraticelement2_spec)
     /\ tp_name (type_of_spec module quadraticelement2_spec)
        = "radicalfield._quadraticelement2.QuadraticElement2"
     /\ tp_module (type_of_spec module quadraticelement2_spec)
        = Some "radicalfield._quadraticelement2"
     /\ ht_name (type_of_spec module quadraticelement2_spec) = "QuadraticElement2"
     /\ dom (heap (snd (module_exec module h))) = {[fresh (dom (heap h))]} ∪ dom (heap h)
     /\ fresh (dom (heap h)) ∉ dom (heap h))
  /\ (forall rest, allocs h = false :: rest -> fst (module_exec module h) = -1)
  /\ (forall rest, allocs h = true :: false :: rest -> fst (module_exec module h) = -1).
Proof.
  intros Hm Hfree. destruct h as [hp al]. cbn [heap allocs] in *.
  set (tp := fresh (dom hp)).
  assert (Hmod : is_Some (hp !! module)).
  { unfold as_module in Hm. destruct (hp !! module); [by eexists|done]. }
  assert (Hne : tp ≠ module).
  { intros E. apply (is_fresh (dom hp)). fold tp. rewrite E. by apply elem_of_dom. }
  set (T := {| ob_refcnt := 1; ob_type := PyType_Type;
               ob_body := TypeObj (type_of_spec module quadraticelement2_spec) |}).
  set (hp1 := <[tp := T]> (Py_INCREF module hp)).
  assert (Hm1 : as_module hp1 module = Some m).
  { rewrite <- Hm. apply as_module_ext. unfold hp1.
    rewrite lookup_insert_ne by done. apply Py_INCREF_body. }
  set (m1 := {| md_dict := md_dict m; md_state := {| QuadraticElement2_Type := Some tp |} |}).
  set (hp2 := set_module module m1 hp1).
  assert (Hm2 : as_module hp2 module = Some m1) by by eapply as_module_set_module.
  assert (Ht2 : as_type hp2 tp = Some (type_of_spec module quadraticelement2_spec)).
  { unfold as_type, hp2. rewrite set_module_other by done.
    unfold hp1. by rewrite lookup_insert_eq. }
  destruct (type_name_of_spec module) as (Hname & Hht & Hmodname & Hshort).
  assert (Hcreated : forall al',
     module_exec module {| heap := hp; allocs := al' |}
     = match al' with
       | false :: rest =>
           (-1, {| heap := set_state_type module None hp; allocs := rest |})
       | _ =>
         let '(r, h) := PyModule_AddType module tp {| heap := hp2; allocs := tail al' |} in
         match r with Raise _ => (-1, h) | Ok _ => (0, h) end
       end).
  { intros al'. unfold module_exec, PyType_FromModuleAndSpec, take_alloc.
    cbn [allocs heap with_heap].
    destruct al' as [|[] rest]; cbn [allocs heap with_heap list.tail];
      fold tp; fold T; fold hp1; unfold set_state_type; rewrite ?Hm1.
    all: done. }
  split; [|split].
  - intros Hok.
    set (m2 := {| md_dict := <["QuadraticElement2" := tp]> (md_dict m);
                  md_state := {| QuadraticElement2_Type := Some tp |} |}).
    set (hp3 := set_module module m2 (Py_INCREF tp hp2)).
    assert (Hadd : forall al2, head al2 ≠ Some false ->
       PyModule_AddType module tp {| heap := hp2; allocs := al2 |}
       = (Ok tt, {| heap := hp3; allocs := tail al2 |})).
    { intros al2 Hal2. unfold PyModule_AddType, take_alloc. cbn [heap allocs].
      rewrite Hm2, Ht2, Hshort. unfold m1 at 1 2. cbn [md_dict md_state].
      rewrite Hfree. destruct al2 as [|[] rest2]; done. }
    assert (Hal : al = [] \/ (exists rest, al = true :: rest /\ head rest ≠ Some false)).
    { unfold no_failure_within in Hok. cbn [allocs] in Hok.
      destruct al as [|ok1 [|ok2 rest]]; [by left|right..].
      - inversion Hok; subst. by eexists.
      - inversion Hok as [|? ? ? Hok']; subst. inversion Hok'; subst. by eexists. }
    assert (Hrun : exists al3,
       module_exec module {| heap := hp; allocs := al |}
       = (0, {| heap := hp3; allocs := al3 |})).
    { rewrite Hcreated. destruct Hal as [->|(rest & -> & Hrest)]; cbn [list.tail].
      - rewrite Hadd by done. by eexists.
      - rewrite Hadd by done. by eexists. }
    destruct Hrun as (al3 & ->). cbn [fst snd heap].
    split; [done|]. split.
    { unfold hp3. eapply as_module_set_module.
      rewrite <- Hm2. apply as_module_ext, Py_INCREF_body. }
    split.
    { rewrite <- Ht2. unfold as_type, hp3. rewrite set_module_other by done.
      by rewrite Py_INCREF_body. }
    split; [done|]. split; [done|]. split; [done|]. split; [|apply is_fresh].
    unfold hp3, hp2, hp1. rewrite !set_module_dom. unfold Py_INCREF.
    by rewrite dom_alter_L, set_module_dom, dom_insert_L, dom_alter_L.
  - intros rest ->. by rewrite Hcreated.
  - intros rest ->. rewrite Hcreated. cbn [list.tail].
    unfold PyModule_AddType. cbn [heap]. by rewrite Hm2, Ht2.
Qed.

Lemma module_exec_registers_the_type_witness :
  fst (module_exec 1%positive (boot [])) = 0
  /\ as_module (heap (snd (module_exec 1%positive (boot [])))) 1%positive
     = Some {| md_dict := <["QuadraticElement2" := fresh (dom (heap (boot [])))]> ∅;
               md_state :=
                 {| QuadraticElement2_Type := Some (fresh (dom (heap (boot [])))) |} |}
  /\ as_type (heap (snd (module_exec 1%positive (boot [])))) (fresh (dom (heap (boot []))))
     = Some (type_of_spec 1%positive quadraticelement2_spec)
  /\ tp_name (type_of_spec 1%positive quadraticelement2_spec)
     = "radicalfield._quadraticelement2.QuadraticElement2"
  /\ tp_module (type_of_spec 1%positive quadraticelement2_spec)
     = Some "radicalfield._quadraticelement2"
  /\ ht_name (type_of_spec 1%positive quadraticelement2_spec) = "QuadraticElement2"
  /\ dom (heap (snd (module_exec 1%positive (boot []))))
     = {[fresh (dom (heap (boot [])))]} ∪ dom (heap (boot []))
  /\ fresh (dom (heap (boot []))) ∉ dom (heap (boot [])).
Proof.
  refine (proj1 (module_exec_registers_the_type 1%positive (boot [])
    {| md_dict := ∅; md_state := {| QuadraticElement2_Type := None |} |} _ _) _).
  - reflexivity.
  - reflexivity.
  - unfold no_failure_within. simpl. constructor.
Defined.

(** The three outcomes on the sample host. *)
Example module_exec_outcomes :
  fst (module_exec 1%positive (boot [])) = 0
  /\ fst (module_exec 1%positive (boot [false])) = -1
  /\ fst (module_exec 1%positive (boot [true; false])) = -1
  /\ md_dict <$> as_module (heap (loaded [])) 1%positive
     = Some (<["QuadraticElement2" := 3%positive]> ∅).
Proof. vm_compute. repeat split; reflexivity. Qed.

(** * Further properties *)

(** ** Releasing what the constructor acquired *)

Lemma Py_DECREF_fuel_shared fuel (hp : heapT) p o :
  hp !! p = Some o -> ob_refcnt o ≠ 1 ->
  Py_DECREF_fuel fuel p hp = <[p := set_refcnt (ob_refcnt o - 1) o]> hp.
Proof.
  intros H Hn. destruct fuel; simpl; rewrite H;
    destruct (Z.eqb_spec (ob_refcnt o - 1) 0); (lia || done).
Qed.

Lemma Py_DECREF_fuel_last_long fuel (hp : heapT) p o :
  hp !! p = Some o -> ob_refcnt o = 1 -> ob_type o = PyLong_Type ->
  Py_DECREF_fuel (S fuel) p hp = delete p hp.
Proof.
  intros H Hn Ht. simpl. rewrite H, Hn, Ht. simpl. by rewrite delete_insert_eq.
Qed.

(** Releasing an acquired reference undoes the acquisition, also under
    an object [qe] that was added since. *)
Lemma acquired_release_framed fuel (hp : heapT) p hp1 qe o :
  positive_counts hp -> acquired hp p hp1 -> hp1 !! qe = None ->
  Py_DECREF_fuel (S fuel) p (<[qe := o]> hp1) = <[qe := o]> hp.
Proof.
  intros Hpos Hacq Hqe.
  assert (Hne : p ≠ qe).
  { intros ->. destruct Hacq as [[Hs ->]|[_ ->]].
    - apply Py_INCREF_lookup_None in Hqe. rewrite Hqe in Hs. by destruct Hs.
    - by rewrite lookup_insert_eq in Hqe. }
  destruct Hacq as [[[op Hp] ->]|[Hp ->]].
  - pose proof (positive_counts_nonzero hp p Hpos op Hp) as Hnz.
    erewrite Py_DECREF_fuel_shared.
    2:{ rewrite lookup_insert_ne by done. unfold Py_INCREF.
        rewrite lookup_alter_eq, Hp. done. }
    2:{ simpl. lia. }
    apply map_eq. intros i. unfold Py_INCREF.
    destruct (decide (i = p)) as [->|Hip].
    + rewrite lookup_insert_eq, lookup_insert_ne, Hp by done. f_equal.
      destruct op; unfold set_refcnt; simpl. f_equal. lia.
    + rewrite lookup_insert_ne by done.
      destruct (decide (i = qe)) as [->|Hiq].
      * by rewrite !lookup_insert_eq.
      * rewrite !lookup_insert_ne by done. by rewrite lookup_alter_ne.
  - erewrite Py_DECREF_fuel_last_long;
      [|rewrite lookup_insert_ne by done; apply lookup_insert_eq|done|done].
    apply map_eq. intros i.
    destruct (decide (i = p)) as [->|Hip].
    + by rewrite lookup_delete_eq, lookup_insert_ne, Hp.
    + rewrite lookup_delete_ne by done.
      destruct (decide (i = qe)) as [->|Hiq].
      * by rewrite !lookup_insert_eq.
      * by rewrite !lookup_insert_ne.
Qed.

Lemma acquired_release_fuel fuel (hp : heapT) p hp1 :
  positive_counts hp -> acquired hp p hp1 -> Py_DECREF_fuel (S fuel) p hp1 = hp.
Proof.
  intros Hpos [[[op Hp] ->]|[Hp ->]].
  - pose proof (positive_counts_nonzero hp p Hpos op Hp) as Hnz.
    erewrite Py_DECREF_fuel_shared.
    2:{ unfold Py_INCREF. rewrite lookup_alter_eq, Hp. done. }
    2:{ simpl. lia. }
    apply map_eq. intros i. unfold Py_INCREF.
    destruct (decide (i = p)) as [->|Hip].
    + rewrite lookup_insert_eq, Hp. f_equal.
      destruct op; unfold set_refcnt; simpl. f_equal. lia.
    + rewrite lookup_insert_ne by done. by rewrite lookup_alter_ne.
  - erewrite Py_DECREF_fuel_last_long; [|apply lookup_insert_eq|done|done].
    rewrite delete_insert_eq. by apply delete_id.
Qed.

Lemma acquired_keeps (hp : heapT) p hp1 i :
  acquired hp p hp1 -> is_Some (hp !! i) -> is_Some (hp1 !! i).
Proof.
  intros [[_ ->]|[Hp ->]] Hi; [by apply Py_INCREF_is_Some|].
  rewrite lookup_insert_ne; [done|]. intros ->. rewrite Hp in Hi. by destruct Hi.
Qed.

Lemma acquired_absent (hp : heapT) p hp1 i :
  acquired hp p hp1 -> hp1 !! i = None -> hp !! i = None.
Proof.
  intros Hacq Hi. destruct (hp !! i) eqn:E; [|done].
  destruct (acquired_keeps _ _ _ i Hacq) as [? Hs]; [by eexists|congruence].
Qed.

(** Three acquisitions in the order of the constructor ([a], [b], the
    type) can be undone in the same order. *)
Lemma release_chain (hp : heapT) pa pb tp H1 H2 H3 :
  positive_counts hp ->
  acquired hp pa H1 -> acquired H1 pb H2 -> acquired H2 tp H3 ->
  (is_Some (H1 !! pb) -> is_Some (hp !! pb)) ->
  is_Some (hp !! tp) ->
  exists Ha Hb,
    acquired Ha pa H3 /\ positive_counts Ha
    /\ acquired Hb pb Ha /\ positive_counts Hb
    /\ acquired hp tp Hb.
Proof.
  intros Hpos Ha Hb Ht Hb_old Ht_old.
  destruct (acquired_swap _ _ _ _ _ Ha Hb Hb_old) as (H1' & Hb' & Ha').
  destruct (acquired_swap _ _ _ _ _ Ha' Ht) as (H2' & Ht' & Ha'').
  { intros _. by eapply acquired_keeps. }
  destruct (acquired_swap _ _ _ _ _ Hb' Ht') as (H1'' & Ht'' & Hb'').
  { by intros _. }
  exists H2', H1''. split; [done|].
  assert (positive_counts H1'') by by eapply acquired_positive.
  assert (positive_counts H2') by by eapply acquired_positive.
  done.
Qed.

(** The heap a successful construction leaves: the two acquisitions, one
    more reference to the type, and the envelope at a fresh address. *)
Lemma new_Ok_chain type args kwds h qe h' :
  live_arguments (heap h) args kwds ->
  quadraticelement2_new type args kwds h = (Ok qe, h') ->
  exists a b pa pb H1 H2,
    PyArg_ParseTupleAndKeywords args kwds kwlist = Ok [a; b]
    /\ acquired (heap h) pa H1 /\ acquired H1 pb H2
    /\ (is_Some (H1 !! pb) -> is_Some (heap h !! pb))
    /\ (forall x, a = Some x -> pa = x) /\ (forall y, b = Some y -> pb = y)
    /\ (a = None -> heap h !! pa = None) /\ (b = None -> H1 !! pb = None)
    /\ H2 !! qe = None
    /\ heap h' = <[qe := element_object type (Some pa) (Some pb)]> (Py_INCREF type H2).
Proof.
  intros Hlive. unfold quadraticelement2_new.
  destruct (PyArg_ParseTupleAndKeywords args kwds kwlist) as [vals|e0] eqn:Hparse; [|done].
  destruct (parse_inv _ _ _ Hparse) as (a & b & -> & Hargs).
  destruct (acquire_or_zero a h) as [ra h1] eqn:Ha.
  apply acquire_or_zero_inv in Ha as [(pa & -> & Hacq_a & Hnew_a & Hsame_a)|(-> & _)];
    [|done|by eauto].
  destruct (acquire_or_zero b h1) as [rb h2] eqn:Hb.
  assert (Hb_live : forall x, b = Some x -> is_Some (heap h1 !! x)).
  { intros x Hx. eapply acquired_keeps; eauto. }
  apply acquire_or_zero_inv in Hb as [(pb & -> & Hacq_b & Hnew_b & Hsame_b)|(-> & _)];
    [|done|done].
  destruct (PyType_GenericAlloc type h2) as [rq h3] eqn:Hq.
  apply PyType_GenericAlloc_inv in Hq as [(p & -> & Hp & Hh3)|(-> & _)]; [|done].
  intros [= <- <-]. simpl. rewrite Hh3.
  erewrite !store_field_insert by done. simpl.
  exists a, b, pa, pb, (heap h1), (heap h2).
  split; [done|]. split; [done|]. split; [done|]. split.
  { intros Hs. destruct b as [y|].
    - rewrite (Hsame_b y eq_refl). eauto.
    - destruct Hnew_b as [Hn _]. rewrite Hn in Hs by done. by destruct Hs. }
  split; [done|]. split; [done|].
  split; [by apply Hnew_a|]. split; [by apply Hnew_b|]. done.
Qed.

Lemma element_type_dealloc (hp : heapT) tp :
  element_type hp tp ->
  type_slot hp (HeapType tp) Py_tp_dealloc = Some (Fn quadraticelement2_dealloc_fn).
Proof. unfold element_type, type_slot. intros ->. by vm_compute. Qed.

(** The last reference to an instance of the type goes through the
    [Py_tp_dealloc] slot, that is [quadraticelement2_dealloc]. *)
Lemma Py_DECREF_fuel_last_element fuel (hp : heapT) x o tp :
  hp !! x = Some o -> ob_refcnt o = 1 -> ob_type o = HeapType tp ->
  element_type (<[x := set_refcnt 0 o]> hp) tp ->
  Py_DECREF_fuel (S fuel) x hp
  = quadraticelement2_dealloc_with (Py_DECREF_fuel fuel) x (<[x := set_refcnt 0 o]> hp).
Proof.
  intros Hx Hn Ht Htp. pose proof (element_type_dealloc _ _ Htp) as Hslot.
  cbn [Py_DECREF_fuel]. rewrite Hx. cbv zeta. rewrite Hn.
  change (1 - 1) with 0. change (0 =? 0) with true. cbv iota.
  rewrite Ht. by rewrite Hslot.
Qed.

Lemma acquired_body (hp : heapT) p hp1 i :
  acquired hp p hp1 -> is_Some (hp !! i) ->
  ob_body <$> hp1 !! i = ob_body <$> hp !! i.
Proof.
  intros [[_ ->]|[Hp ->]] Hi; [apply Py_INCREF_body|].
  rewrite lookup_insert_ne; [done|]. intros ->. rewrite Hp in Hi. by destruct Hi.
Qed.

(** What both round trips start from: the heap after a successful
    construction, and the heaps its releases lead through. *)
Lemma new_Ok_releases type args kwds h qe h' :
  positive_counts (heap h) ->
  live_arguments (heap h) args kwds ->
  element_type (heap h) type ->
  quadraticelement2_new type args kwds h = (Ok qe, h') ->
  exists pa pb H3 Ha,
    heap h' = <[qe := element_object type (Some pa) (Some pb)]> H3
    /\ H3 !! qe = None
    /\ acquired Ha pa H3 /\ positive_counts Ha
    /\ acquired (Py_INCREF type (heap h)) pb Ha
    /\ (forall o, ob_type o = HeapType type ->
          element_type (<[qe := o]> (Py_INCREF type (heap h))) type
          /\ element_type (<[qe := o]> H3) type).
Proof.
  intros Hpos Hlive Htype Hnew.
  destruct (new_Ok_chain _ _ _ _ _ _ Hlive Hnew)
    as (a & b & pa & pb & H1 & H2 & _ & Ha & Hb & Hb_old & _ & _ & _ & _ & Hqe & Hh').
  pose proof (element_type_is_Some _ _ Htype) as Ht_live.
  assert (Ht2 : is_Some (H2 !! type)) by (do 2 (eapply acquired_keeps; [eassumption|]); done).
  assert (Ht : acquired H2 type (Py_INCREF type H2)) by by left.
  destruct (release_chain _ _ _ _ _ _ _ Hpos Ha Hb Ht Hb_old Ht_live)
    as (Ha' & Hb' & Hrel_a & Hpos_a & Hrel_b & Hpos_b & Hrel_t).
  assert (Hb' = Py_INCREF type (heap h)) as ->.
  { destruct Hrel_t as [[_ ->]|[Hn _]]; [done|].
    rewrite Hn in Ht_live. by destruct Ht_live. }
  assert (Hqe3 : Py_INCREF type H2 !! qe = None) by by apply Py_INCREF_lookup_None.
  exists pa, pb, (Py_INCREF type H2), Ha'.
  split; [done|]. split; [done|]. split; [done|]. split; [done|]. split; [done|].
  intros o Ho.
  assert (Hne : type ≠ qe).
  { intros ->. rewrite Hqe in Ht2. by destruct Ht2. }
  split; (eapply element_type_ext; [|exact Htype]); rewrite lookup_insert_ne by done.
  - apply Py_INCREF_body.
  - rewrite Py_INCREF_body.
    rewrite (acquired_body _ _ _ _ Hb) by by eapply acquired_keeps.
    by rewrite (acquired_body _ _ _ _ Ha).
Qed.

Lemma size_insert_fresh (hp : heapT) i o :
  hp !! i = None -> exists n, size (<[i := o]> hp) = S n.
Proof. intros H. rewrite map_size_insert_None by done. by eexists. Qed.

(** Dropping the last reference to an envelope that sits on top of a
    heap with one more reference to its type: the fields are released, the
    envelope is freed, the type is released. *)
Lemma drop_envelope (hp : heapT) qe type pa pb H3 :
  positive_counts hp ->
  is_Some (hp !! type) ->
  H3 !! qe = None ->
  element_type (<[qe := set_refcnt 0 (element_object type pa pb)]> H3) type ->
  (exists Ha Hb,
     (match pa with Some p => acquired Ha p H3 /\ positive_counts Ha | None => Ha = H3 end)
     /\ (match pb with Some p => acquired Hb p Ha /\ positive_counts Hb | None => Hb = Ha end)
     /\ Hb = Py_INCREF type hp) ->
  Py_DECREF qe (<[qe := element_object type pa pb]> H3) = hp.
Proof.
  intros Hpos Ht Hqe Htp (Ha & Hb & Hrel_a & Hrel_b & HHb).
  unfold Py_DECREF.
  destruct (size_insert_fresh H3 qe (element_object type pa pb) Hqe) as [n ->].
  erewrite Py_DECREF_fuel_last_element;
    [|apply lookup_insert_eq|done|done|by rewrite insert_insert_eq].
  rewrite insert_insert_eq. unfold quadraticelement2_dealloc_with.
  rewrite lookup_insert_eq. cbn [ob_body ob_type set_refcnt element_object qe_a qe_b type_ptr].
  assert (Hqa : Ha !! qe = None).
  { destruct pa; [|by subst]. destruct Hrel_a. by eapply acquired_absent. }
  assert (Hqb : Hb !! qe = None).
  { destruct pb; [|by subst]. destruct Hrel_b. by eapply acquired_absent. }
  assert (E1 : Py_XDECREF_with (Py_DECREF_fuel (S n)) pa
                 (<[qe := set_refcnt 0 (element_object type pa pb)]> H3)
               = <[qe := set_refcnt 0 (element_object type pa pb)]> Ha).
  { destruct pa as [p|]; simpl; [|by subst].
    destruct Hrel_a. by apply acquired_release_framed. }
  rewrite E1.
  assert (E2 : Py_XDECREF_with (Py_DECREF_fuel (S n)) pb
                 (<[qe := set_refcnt 0 (element_object type pa pb)]> Ha)
               = <[qe := set_refcnt 0 (element_object type pa pb)]> Hb).
  { destruct pb as [p|]; simpl; [|by subst].
    destruct Hrel_b. by apply acquired_release_framed. }
  rewrite E2.
  rewrite delete_insert_eq, delete_id by done. simpl. subst Hb.
  apply acquired_release_fuel; [done|by left].
Qed.

(** X1. Construction followed by the release of the returned reference
    is a round trip: on a heap whose counts are positive, with live
    arguments and the type made from [quadraticelement2_spec], dropping the
    one reference to the new element runs [quadraticelement2_dealloc] and
    leaves the heap exactly as it was before the call, whether the fields
    were supplied or defaulted. *)
Theorem construct_then_drop type args kwds h qe h' :
  positive_counts (heap h) ->
  live_arguments (heap h) args kwds ->
  element_type (heap h) type ->
  quadraticelement2_new type args kwds h = (Ok qe, h') ->
  Py_DECREF qe (heap h') = heap h.
Proof.
  intros Hpos Hlive Htype Hnew.
  destruct (new_Ok_releases _ _ _ _ _ _ Hpos Hlive Htype Hnew)
    as (pa & pb & H3 & Ha & -> & Hqe & Hrel_a & Hpos_a & Hrel_b & Hty).
  apply drop_envelope; [done|by apply element_type_is_Some|done|by apply Hty|].
  exists Ha, (Py_INCREF type (heap h)). split; [done|]. split; [|done].
  split; [done|]. by apply positive_counts_INCREF.
Qed.

(** X2. After a successful construction [quadraticelement2_clear]
    releases both fields and leaves only the envelope, with its two fields
    [NULL], and its reference to the type; dropping the element afterwards
    releases nothing a second time and leaves the heap exactly as it was
    before the construction. *)
Theorem construct_clear_drop type args kwds h qe h' :
  positive_counts (heap h) ->
  live_arguments (heap h) args kwds ->
  element_type (heap h) type ->
  quadraticelement2_new type args kwds h = (Ok qe, h') ->
  quadraticelement2_clear qe (heap h')
  = (0, <[qe := element_object type None None]> (Py_INCREF type (heap h)))
  /\ Py_DECREF qe (snd (quadraticelement2_clear qe (heap h'))) = heap h.
Proof.
  intros Hpos Hlive Htype Hnew.
  destruct (new_Ok_releases _ _ _ _ _ _ Hpos Hlive Htype Hnew)
    as (pa & pb & H3 & Ha & -> & Hqe & Hrel_a & Hpos_a & Hrel_b & Hty).
  assert (Hclear : quadraticelement2_clear qe
                     (<[qe := element_object type (Some pa) (Some pb)]> H3)
                   = (0, <[qe := element_object type None None]>
                           (Py_INCREF type (heap h)))).
  { unfold quadraticelement2_clear. f_equal.
    assert (E1 : Py_CLEAR qe offsetof_a
                   (<[qe := element_object type (Some pa) (Some pb)]> H3)
                 = <[qe := element_object type None (Some pb)]> Ha).
    { unfold Py_CLEAR, as_element. rewrite lookup_insert_eq. simpl.
      erewrite store_field_insert by done. unfold Py_DECREF.
      by apply acquired_release_framed. }
    rewrite E1.
    unfold Py_CLEAR, as_element. rewrite lookup_insert_eq. simpl.
    erewrite store_field_insert by done. unfold Py_DECREF.
    apply acquired_release_framed; [by apply positive_counts_INCREF|done|].
    by eapply acquired_absent. }
  split; [done|]. rewrite Hclear. cbn [snd].
  apply drop_envelope; [done|by apply element_type_is_Some| |by apply Hty|].
  - eapply acquired_absent; [exact Hrel_b|]. by eapply acquired_absent.
  - by exists (Py_INCREF type (heap h)), (Py_INCREF type (heap h)).
Qed.

(** ** Teardown of an element *)

(** X3. [quadraticelement2_dealloc] frees the element it is called on
    and otherwise only releases: afterwards the element is not in the heap,
    no object has appeared or has another body, and no object that was
    unreferenced is referenced. *)
Theorem dealloc_frees_and_only_releases (hp : heapT) x qe :
  as_element hp x = Some qe ->
  quadraticelement2_dealloc x hp !! x = None
  /\ shrinks hp (quadraticelement2_dealloc x hp)
  /\ no_gain hp (quadraticelement2_dealloc x hp).
Proof.
  intros Hx. split; [|split].
  - unfold quadraticelement2_dealloc, quadraticelement2_dealloc_with.
    unfold as_element in Hx. destruct (hp !! x) as [o|]; [|done]. simpl in Hx.
    destruct (ob_body o); try done.
    match goal with
    | |- Py_XDECREF_with _ ?tp (delete x ?H) !! x = None =>
        pose proof (Py_XDECREF_with_shrinks Py_DECREF tp (delete x H)
                      Py_DECREF_shrinks x) as [E|E]; [done|]
    end.
    rewrite lookup_delete_eq in E.
    match goal with |- ?m !! x = None => by destruct (m !! x) end.
  - apply quadraticelement2_dealloc_with_shrinks, Py_DECREF_shrinks.
  - apply quadraticelement2_dealloc_with_no_gain. intros p hp'.
    apply Py_DECREF_fuel_no_gain.
Qed.

(** X4. An element that is still there after
    [quadraticelement2_clear] has both fields [NULL]: reading [a] or [b]
    raises [AttributeError] and leaves the heap alone (the members are
    [Py_T_OBJECT_EX]), and a traversal reports the type and nothing
    else. *)
Theorem cleared_element_has_no_fields (hp : heapT) x tp :
  Py_TYPE (snd (quadraticelement2_clear x hp)) x = Some (HeapType tp) ->
  element_type (snd (quadraticelement2_clear x hp)) tp ->
  is_Some (as_element (snd (quadraticelement2_clear x hp)) x) ->
  as_element (snd (quadraticelement2_clear x hp)) x
    = Some {| qe_a := None; qe_b := None |}
  /\ member_getattr x "a" (snd (quadraticelement2_clear x hp))
     = Some (Raise AttributeError, snd (quadraticelement2_clear x hp))
  /\ member_getattr x "b" (snd (quadraticelement2_clear x hp))
     = Some (Raise AttributeError, snd (quadraticelement2_clear x hp))
  /\ (forall (S : Type) (visit : addr -> S -> Z * S) arg,
        quadraticelement2_traverse (snd (quadraticelement2_clear x hp)) x visit arg
        = visit_each visit [tp] arg).
Proof.
  set (hp' := snd (quadraticelement2_clear x hp)).
  intros Ht Htp [qe Hqe].
  destruct (clear_leaves_no_field x hp qe Hqe) as [Ha Hb].
  assert (qe = {| qe_a := None; qe_b := None |}) as -> by (destruct qe; simpl in *; by subst).
  split; [done|].
  destruct (element_type_slots _ _ Htp) as (_ & _ & _ & _ & _ & Hmem).
  split; [|split].
  - unfold member_getattr. fold hp'. rewrite Ht, Hmem. simpl.
    unfold PyMember_GetOne. by rewrite Hqe.
  - unfold member_getattr. fold hp'. rewrite Ht, Hmem. simpl.
    unfold PyMember_GetOne. by rewrite Hqe.
  - intros S visit arg. fold hp'.
    unfold as_element in Hqe. unfold Py_TYPE in Ht.
    destruct (hp' !! x) as [o|] eqn:Hx; [|done]. simpl in Hqe, Ht.
    destruct (ob_body o) eqn:Hbody; try done. injection Hqe as ->.
    injection Ht as Ht.
    rewrite (traverse_visits_owned hp' x o _ visit arg Hx Hbody).
    unfold owned_references. by rewrite Ht.
Qed.

(** ** What the constructor keeps *)




(** ** The module, from execution to teardown *)


Lemma as_module_lookup (hp : heapT) module m :
  as_module hp module = Some m ->
  exists o, hp !! module = Some o /\ ob_body o = ModuleObj m.
Proof.
  unfold as_module. destruct (hp !! module) as [o|]; [|done]. simpl.
  destruct (ob_body o) eqn:E; try done. intros [= ->]. by eexists.
Qed.







Lemma as_module_shrinks (hp hp' : heapT) x m :
  shrinks hp hp' -> as_module hp' x = Some m -> as_module hp x = Some m.
Proof.
  intros H. unfold as_module. destruct (H x) as [E|E]; rewrite E; done.
Qed.

(** X9. [module_clear] returns 0 on every module and heap; once it has
    run, running it again changes nothing and [module_traverse] calls the
    visitor on nothing. *)
Theorem module_clear_is_idempotent module (hp : heapT) :
  fst (module_clear module hp) = 0
  /\ module_clear module (module_free module hp) = (0, module_free module hp)
  /\ (forall (S : Type) (visit : addr -> S -> Z * S) arg,
        module_traverse (module_free module hp) module visit arg = (0, arg)).
Proof.
  assert (Hstate : forall m', as_module (module_free module hp) module = Some m' ->
                     QuadraticElement2_Type (md_state m') = None).
  { unfold module_free, module_clear. intros m'.
    destruct (as_module hp module) as [m|] eqn:Hm; [|simpl; congruence].
    destruct (QuadraticElement2_Type (md_state m)) as [tmp|] eqn:Hs; simpl.
    - intros H. apply (as_module_shrinks _ _ _ _ (Py_DECREF_shrinks _ _)) in H.
      unfold set_state_type in H. rewrite Hm in H.
      rewrite (as_module_set_module hp module m _ Hm) in H. by injection H as <-.
    - intros H. rewrite Hm in H. by injection H as <-. }
  split; [|split].
  - unfold module_clear. destruct (as_module hp module) as [m|]; [|done].
    by destruct (QuadraticElement2_Type (md_state m)).
  - unfold module_clear at 1.
    destruct (as_module (module_free module hp) module) as [m'|] eqn:Hm'; [|done].
    by rewrite (Hstate m' eq_refl).
  - intros S visit arg. unfold module_traverse.
    destruct (as_module (module_free module hp) module) as [m'|] eqn:Hm'; [|done].
    by rewrite (Hstate m' eq_refl).
Qed.



(** ** Which calls the constructor accepts *)

Lemma present_keys_size (kwds : gmap string addr) (l : list string) :
  NoDup l -> (forall k, k ∈ l -> is_Some (kwds !! k)) -> (length l <= size kwds)%nat.
Proof.
  intros Hnd Hl. rewrite <- (size_list_to_set (C := gset string) l Hnd).
  rewrite <- (size_dom (D := gset string) kwds). apply subseteq_size.
  intros k Hk. apply elem_of_dom, Hl. by apply elem_of_list_to_set in Hk.
Qed.

Lemma only_keys_size (kwds : gmap string addr) (l : list string) :
  NoDup l -> (forall k, is_Some (kwds !! k) -> k ∈ l) -> (size kwds <= length l)%nat.
Proof.
  intros Hnd Hl. rewrite <- (size_list_to_set (C := gset string) l Hnd).
  rewrite <- (size_dom (D := gset string) kwds). apply subseteq_size.
  intros k Hk. apply elem_of_list_to_set, Hl. by apply elem_of_dom.
Qed.

(** The keywords a call may still use after its positional arguments:
    those of [kwlist] from position [length args] on. *)
Lemma parse_outcome args kwds :
  let allowed := drop (length args) kwlist in
  let taken := filter (fun nm => is_Some (kwds !! nm)) allowed in
  PyArg_ParseTupleAndKeywords args kwds kwlist
  = if decide ((length args <= 2)%nat /\ (size kwds <= length taken)%nat)
    then Ok [argument_of args kwds 0 "a"; argument_of args kwds 1 "b"]
    else Raise TypeError.
Proof.
  intros allowed taken.
  assert (Htaken : (length taken <= size kwds)%nat).
  { apply present_keys_size.
    - apply list.NoDup_filter. unfold allowed.
      destruct args as [|x [|y [|z l]]]; cbn;
        apply (bool_decide_unpack _); by vm_compute.
    - intros k Hk. by apply list_elem_of_filter in Hk as [Hk _]. }
  assert (Hallowed : (length taken <= 2 - length args)%nat).
  { etrans; [apply length_filter|]. unfold allowed. rewrite length_drop. simpl. lia. }
  unfold PyArg_ParseTupleAndKeywords, argument_of.
  subst taken allowed.
  destruct args as [|x [|y [|z l]]]; cbn -[size] in *.
  - destruct (kwds !! "a"), (kwds !! "b"); cbn -[size] in *;
      repeat case_decide; cbn [length] in *; try done; lia.
  - destruct (kwds !! "b"); cbn -[size] in *;
      repeat case_decide; cbn [length] in *; try done; lia.
  - repeat case_decide; cbn [length] in *; try done; lia.
  - repeat case_decide; cbn [length] in *; try done; lia.
Qed.

Lemma well_shaped_iff args kwds :
  well_shaped_call args kwds
  <-> (length args <= 2)%nat
      /\ (size kwds
           <= length (filter (fun nm => is_Some (kwds !! nm))
                        (drop (length args) kwlist)))%nat.
Proof.
  set (allowed := drop (length args) kwlist).
  set (taken := filter (fun nm => is_Some (kwds !! nm)) allowed).
  assert (Hnd : NoDup taken).
  { apply list.NoDup_filter. unfold allowed.
    destruct args as [|x [|y [|z l]]]; cbn;
      apply (bool_decide_unpack _); by vm_compute. }
  assert (Hallowed : forall k, k ∈ allowed <->
            (k = "a" /\ length args = 0%nat) \/ (k = "b" /\ (length args <= 1)%nat)).
  { intros k. unfold allowed.
    destruct args as [|x [|y [|z l]]]; cbn; rewrite ?elem_of_cons, ?elem_of_nil;
      intuition (try lia; try discriminate; auto). }
  unfold well_shaped_call. split.
  - intros [Hlen Hkeys]. split; [done|]. apply only_keys_size; [done|].
    intros k Hk. apply list_elem_of_filter. split; [done|]. by apply Hallowed, Hkeys.
  - intros [Hlen Hsize]. split; [done|]. intros k Hk. apply Hallowed.
    assert (Hsub : list_to_set taken ⊆ dom kwds).
    { intros k' Hk'. apply elem_of_list_to_set, list_elem_of_filter in Hk' as [Hk' _].
      by apply elem_of_dom. }
    assert (Heq : (list_to_set taken : gset string) = dom kwds).
    { apply set_subseteq_size_eq; [done|].
      rewrite size_dom, size_list_to_set by done. done. }
    assert (Hin : k ∈ (list_to_set taken : gset string)).
    { rewrite Heq. by apply elem_of_dom. }
    by apply elem_of_list_to_set, list_elem_of_filter in Hin as [_ Hin].
Qed.

(** X11. The constructor takes exactly the well-shaped calls: for such
    a call each parameter receives its positional argument, else its
    keyword argument, else [NULL]; any other call is refused with
    [TypeError] and the host is left as it was, the schedule of
    allocations included. *)
Theorem constructor_accepts_well_shaped_calls args kwds :
  (well_shaped_call args kwds ->
   PyArg_ParseTupleAndKeywords args kwds kwlist
   = Ok [argument_of args kwds 0 "a"; argument_of args kwds 1 "b"])
  /\ (~ well_shaped_call args kwds ->
      forall type h, quadraticelement2_new type args kwds h = (Raise TypeError, h)).
Proof.
  pose proof (parse_outcome args kwds) as Hparse. cbv zeta in Hparse.
  split.
  - intros Hw. rewrite Hparse. apply well_shaped_iff in Hw. by rewrite decide_True.
  - intros Hw type h. unfold quadraticelement2_new. rewrite Hparse.
    rewrite decide_False; [done|]. intros H. by apply Hw, well_shaped_iff.
Qed.

(** ** The properties above on the sample hosts *)

(** [construct(1)], whose [b] is defaulted, then the release of the
    result. *)
Lemma construct_then_drop_witness :
  Py_DECREF 9%positive
    (heap (snd (quadraticelement2_new 3%positive [4%positive] ∅ (with_ints []))))
  = heap (with_ints []).
Proof.
  apply (construct_then_drop 3%positive [4%positive] ∅ (with_ints []) 9%positive
           (snd (quadraticelement2_new 3%positive [4%positive] ∅ (with_ints [])))).
  - by_evaluation.
  - split; [by_evaluation | apply map_Forall_empty].
  - vm_compute. reflexivity.
  - vm_compute. reflexivity.
Defined.

Lemma construct_clear_drop_witness :
  quadraticelement2_clear 8%positive
    (heap (snd (quadraticelement2_new 3%positive [4; 5]%positive ∅ (with_ints []))))
  = (0, <[8%positive := element_object 3%positive None None]>
          (Py_INCREF 3%positive (heap (with_ints []))))
  /\ Py_DECREF 8%positive
       (snd (quadraticelement2_clear 8%positive
          (heap (snd (quadraticelement2_new 3%positive [4; 5]%positive ∅
                        (with_ints []))))))
     = heap (with_ints []).
Proof.
  apply (construct_clear_drop 3%positive [4; 5]%positive ∅ (with_ints []) 8%positive
           (snd (quadraticelement2_new 3%positive [4; 5]%positive ∅ (with_ints [])))).
  - by_evaluation.
  - split; [by_evaluation | apply map_Forall_empty].
  - vm_compute. reflexivity.
  - vm_compute. reflexivity.
Defined.

Lemma dealloc_frees_and_only_releases_witness :
  quadraticelement2_dealloc 9%positive (heap two_elements) !! 9%positive = None.
Proof.
  refine (proj1 (dealloc_frees_and_only_releases (heap two_elements) 9%positive
                   {| qe_a := Some 6%positive; qe_b := Some 7%positive |} _)).
  vm_compute. reflexivity.
Defined.

Lemma cleared_element_has_no_fields_witness :
  member_getattr 8%positive "a" (snd (quadraticelement2_clear 8%positive (heap twins)))
  = Some (Raise AttributeError, snd (quadraticelement2_clear 8%positive (heap twins))).
Proof.
  refine (proj1 (proj2 (cleared_element_has_no_fields (heap twins) 8%positive
                          3%positive _ _ _))).
  - vm_compute. reflexivity.
  - vm_compute. reflexivity.
  - vm_compute. by eexists.
Defined.






(** [construct()] is well shaped. *)
Lemma constructor_accepts_well_shaped_calls_witness :
  PyArg_ParseTupleAndKeywords [] ∅ kwlist
  = Ok [argument_of [] ∅ 0 "a"; argument_of [] ∅ 1 "b"].
Proof.
  refine (proj1 (constructor_accepts_well_shaped_calls [] ∅) _).
  split; [simpl; lia|]. intros k [v Hk]. by rewrite lookup_empty in Hk.
Defined.

(** ** The allocations a construction needs *)



(** ** From the constructor to the attributes *)

(** X13. From the constructor to the attributes and back: on a newly
    constructed element, reading [a] and [b] returns new references to the
    very objects passed for them, and to an [int] zero for a parameter
    that was omitted. *)
Theorem attributes_return_the_arguments type args kwds h qe h' a b :
  element_type (heap h) type ->
  PyArg_ParseTupleAndKeywords args kwds kwlist = Ok [a; b] ->
  quadraticelement2_new type args kwds h = (Ok qe, h') ->
  exists pa pb,
    member_getattr qe "a" (heap h') = Some (Ok pa, Py_INCREF pa (heap h'))
    /\ member_getattr qe "b" (heap h') = Some (Ok pb, Py_INCREF pb (heap h'))
    /\ (forall x, a = Some x -> pa = x)
    /\ (forall y, b = Some y -> pb = y)
    /\ (a = None -> long_value (heap h') pa = Some 0)
    /\ (b = None -> long_value (heap h') pb = Some 0).
Proof.
  intros Htype Hparse Hnew.
  destruct (new_Ok_inv _ _ _ _ _ _ Hnew)
    as (a' & b' & pa & pb & Hparse' & _ & Hqe & Hold & Ha & Hb & Hza & Hzb).
  rewrite Hparse in Hparse'. injection Hparse' as <- <-.
  assert (Htp : element_type (heap h') type).
  { eapply element_type_ext; [|exact Htype]. by apply Hold, element_type_is_Some. }
  destruct (element_type_slots _ _ Htp) as (_ & _ & _ & _ & _ & Hmem).
  exists pa, pb.
  assert (Hget : forall nm f p,
            find_member nm quadraticelement2_members
              = Some {| name := nm; type := Py_T_OBJECT_EX; offset := f;
                        flags := Py_READONLY |} ->
            get_field f {| qe_a := Some pa; qe_b := Some pb |} = Some p ->
            member_getattr qe nm (heap h') = Some (Ok p, Py_INCREF p (heap h'))).
  { intros nm f p Hfind Hf. unfold member_getattr, Py_TYPE. rewrite Hqe. simpl.
    rewrite Hmem, Hfind. unfold PyMember_GetOne, as_element. rewrite Hqe. simpl.
    by rewrite Hf. }
  split; [by apply (Hget "a" offsetof_a)|]. split; [by apply (Hget "b" offsetof_b)|].
  split; [done|]. split; [done|]. split; intros E; [by apply Hza|by apply Hzb].
Qed.

Lemma attributes_return_the_arguments_witness :
  exists pa pb,
    member_getattr 9%positive "a"
      (heap (snd (quadraticelement2_new 3%positive [4%positive] ∅ (with_ints []))))
    = Some (Ok pa, Py_INCREF pa
         (heap (snd (quadraticelement2_new 3%positive [4%positive] ∅ (with_ints [])))))
    /\ member_getattr 9%positive "b"
         (heap (snd (quadraticelement2_new 3%positive [4%positive] ∅ (with_ints []))))
       = Some (Ok pb, Py_INCREF pb
            (heap (snd (quadraticelement2_new 3%positive [4%positive] ∅ (with_ints [])))))
    /\ (forall x, Some 4%positive = Some x -> pa = x)
    /\ (forall y, @None addr = Some y -> pb = y)
    /\ (Some 4%positive = None ->
        long_value (heap (snd (quadraticelement2_new 3%positive [4%positive] ∅
                                 (with_ints [])))) pa = Some 0)
    /\ (@None addr = None ->
        long_value (heap (snd (quadraticelement2_new 3%positive [4%positive] ∅
                                 (with_ints [])))) pb = Some 0).
Proof.
  apply (attributes_return_the_arguments 3%positive [4%positive] ∅ (with_ints [])
           9%positive
           (snd (quadraticelement2_new 3%positive [4%positive] ∅ (with_ints [])))).
  - vm_compute. reflexivity.
  - reflexivity.
  - vm_compute. reflexivity.
Defined.

